(** * easy-panel: access grants, service instances and credentials

    A shallow embedding of the tRPC routers
    [src/server/api/routers/serviceInstance.ts] and
    [src/server/api/routers/user.ts].

    The relational store is a record of tables (lists of rows, in storage
    order).  A procedure body is a computation in a state-and-exception
    monad over a [World]: the store, the session store, the response
    cookie, and the positions reached in the streams of values the
    environment supplies (generated ids, clock readings, salts). *)

From stdpp Require Import base option list strings pretty gmap.
From Stdlib Require Import ZArith.

Set Default Proof Using "Type".
Local Open Scope Z_scope.
Local Open Scope nat_scope.

(** ** Rows and tables *)

Inductive UserRole := ADMIN | USER.

Global Instance UserRole_eq_dec : EqDecision UserRole.
Proof. solve_decision. Defined.

Record User := mkUser {
  user_id : string;
  username : string;
  hashedPassword : string;
  role : UserRole;
  isActive : bool
}.

Record Session := mkSession {
  session_id : string;
  session_userId : string;
  currentIp : option string
}.

(** The columns of a service instance other than its key, its payload and
    its timestamps are kept by name: the table declaration is not part of
    the routers, and [update] spreads whatever fields its input carries. *)
Record ServiceInstance := mkServiceInstance {
  si_id : string;
  si_columns : gmap string string;
  si_data : string;
  si_createdAt : Z;
  si_updatedAt : Z
}.

Record UserInstanceAbility := mkAbility {
  userId : string;
  instanceId : string;
  token : string;
  canUse : bool;
  updatedAt : Z
}.

Record ResourceUsageLog := mkLog {
  log_instanceId : string;
  log_entry : string
}.

Global Instance User_eq_dec : EqDecision User.
Proof. solve_decision. Defined.
Global Instance UserInstanceAbility_eq_dec : EqDecision UserInstanceAbility.
Proof. solve_decision. Defined.
Global Instance ResourceUsageLog_eq_dec : EqDecision ResourceUsageLog.
Proof. solve_decision. Defined.

Record Db := mkDb {
  users : list User;
  serviceInstances : list ServiceInstance;
  userInstanceAbilities : list UserInstanceAbility;
  resourceUsageLogs : list ResourceUsageLog
}.

(** ** Failures *)

Inductive TRPCCode := BAD_REQUEST | UNAUTHORIZED | FORBIDDEN | NOT_FOUND.

(** What the store itself can raise inside a statement. *)
Inductive StoreFault := UniqueViolation | RecordNotFound | Aborted.

Inductive Failure :=
| TRPCError (code : TRPCCode) (message : string)
| ZodError
| StoreError (fault : StoreFault).

Inductive result (A : Type) :=
| Ok (a : A)
| Err (e : Failure).
Arguments Ok {A} a.
Arguments Err {A} e.

Definition failsWith {A} (r : result A) (c : TRPCCode) : Prop :=
  ∃ message, r = Err (TRPCError c message).

(** ** The environment

    Everything the routers obtain from a collaborator: [createCUID],
    [new Date()], the password primitive of [@/lib/password], the session
    ids drawn by the session library, and the store's verdict on each
    statement issued inside a transaction.  The n-th draw from a stream is
    its value at [n]. *)

Record Env := mkEnv {
  createCUID : nat → string;
  newDate : nat → Z;
  hashPassword : nat → string → string;
  verifyPassword : string → string → bool;
  newSessionId : nat → string;
  txAborts : nat → bool
}.

(** Calls to the password primitive, in program order. *)
Inductive PwOp :=
| OpHash (password : string)
| OpVerify (password hashed : string).

Record World := mkWorld {
  db : Db;
  sessions : list Session;
  cookie : option string;
  cuidCalls : nat;
  clockReads : nat;
  saltDraws : nat;
  sessionDraws : nat;
  txStmts : nat;
  pwOps : list PwOp
}.

Definition with_db (d : Db) (w : World) : World :=
  mkWorld d (sessions w) (cookie w) (cuidCalls w) (clockReads w)
          (saltDraws w) (sessionDraws w) (txStmts w) (pwOps w).

Definition with_users (l : list User) (d : Db) : Db :=
  mkDb l (serviceInstances d) (userInstanceAbilities d) (resourceUsageLogs d).
Definition with_serviceInstances (l : list ServiceInstance) (d : Db) : Db :=
  mkDb (users d) l (userInstanceAbilities d) (resourceUsageLogs d).
Definition with_userInstanceAbilities (l : list UserInstanceAbility) (d : Db) : Db :=
  mkDb (users d) (serviceInstances d) l (resourceUsageLogs d).
Definition with_resourceUsageLogs (l : list ResourceUsageLog) (d : Db) : Db :=
  mkDb (users d) (serviceInstances d) (userInstanceAbilities d) l.

(** ** The procedure monad *)

Definition M (A : Type) : Type := World → result A * World.

Definition ret {A} (a : A) : M A := λ w, (Ok a, w).
Definition throw {A} (e : Failure) : M A := λ w, (Err e, w).
Definition bind {A B} (m : M A) (k : A → M B) : M B :=
  λ w, match m w with
       | (Ok a, w') => k a w'
       | (Err e, w') => (Err e, w')
       end.

Notation "'do' x <- m ; k" := (bind m (λ x, k))
  (at level 10, x name, m at level 100, k at level 200).
Notation "m ;;; k" := (bind m (λ _, k))
  (at level 100, k at level 200, right associativity).

(** A read of the store, and a write to it. *)
Definition query {A} (f : Db → A) : M A := λ w, (Ok (f (db w)), w).
Definition modify (f : Db → Db) : M unit := λ w, (Ok tt, with_db (f (db w)) w).

(** [createCUID()] and [new Date()] draw the next value of their stream. *)
Definition cuid (env : Env) : M string := λ w,
  (Ok (createCUID env (cuidCalls w)),
   mkWorld (db w) (sessions w) (cookie w) (S (cuidCalls w)) (clockReads w)
           (saltDraws w) (sessionDraws w) (txStmts w) (pwOps w)).

Definition now (env : Env) : M Z := λ w,
  (Ok (newDate env (clockReads w)),
   mkWorld (db w) (sessions w) (cookie w) (cuidCalls w) (S (clockReads w))
           (saltDraws w) (sessionDraws w) (txStmts w) (pwOps w)).

(** [ctx.db.transaction(body)]: the writes of [body] are kept when it
    returns and undone when it throws; the failure is passed on. *)
Definition transaction {A} (body : M A) : M A := λ w,
  match body w with
  | (Ok a, w') => (Ok a, w')
  | (Err e, w') => (Err e, with_db (db w) w')
  end.

(** Every statement sent through the transaction handle [tx] first asks
    the store whether it is aborted. *)
Definition txStatement (env : Env) : M unit := λ w,
  let w' := mkWorld (db w) (sessions w) (cookie w) (cuidCalls w) (clockReads w)
                    (saltDraws w) (sessionDraws w) (S (txStmts w)) (pwOps w) in
  if txAborts env (txStmts w) then (Err (StoreError Aborted), w') else (Ok tt, w').

(** [findFirst({ where })]: the first row, in storage order, that
    satisfies the predicate. *)
Definition findFirst {A} (P : A → Prop) `{∀ x, Decision (P x)} (l : list A) : option A :=
  snd <$> list_find P l.

(** ** serviceInstance.verifyUserAbility *)

(** The input has passed its schema: both addresses are well-formed or
    null.  The body never reads them. *)
Record VerifyInput := mkVerifyInput {
  vi_instanceId : string;
  vi_userToken : string;
  vi_requestIp : option string;
  vi_userIp : option string
}.

Definition matchesGrant (input : VerifyInput) (a : UserInstanceAbility) : Prop :=
  instanceId a = vi_instanceId input ∧ token a = vi_userToken input.

Global Instance matchesGrant_dec input a : Decision (matchesGrant input a).
Proof. unfold matchesGrant. apply _. Defined.

Definition verifyUserAbility (input : VerifyInput) : M string :=
  do instanceToken <- query (λ d, findFirst (matchesGrant input) (userInstanceAbilities d));
  match instanceToken with
  | None => throw (TRPCError UNAUTHORIZED "Invalid token")
  | Some row =>
      if bool_decide (instanceId row ≠ vi_instanceId input)
      then throw (TRPCError UNAUTHORIZED "Invalid instanceId")
      else if bool_decide (canUse row = false)
      then throw (TRPCError FORBIDDEN "You are not permitted to use this instance")
      else ret (userId row)
  end.

(** ** serviceInstance.grantToAllActiveUsers *)

Definition sameGrant (uid iid : string) (a : UserInstanceAbility) : Prop :=
  userId a = uid ∧ instanceId a = iid.

Global Instance sameGrant_dec uid iid a : Decision (sameGrant uid iid a).
Proof. unfold sameGrant. apply _. Defined.

(** The [set] clause of the upsert: [canUse] and [updatedAt] only. *)
Definition setOnConflict (c : bool) (t : Z) (a : UserInstanceAbility) : UserInstanceAbility :=
  mkAbility (userId a) (instanceId a) (token a) c t.

(** The rows that meet the target take the [set] clause. *)
Definition onConflict (uid iid : string) (c : bool) (t : Z) (a : UserInstanceAbility)
  : UserInstanceAbility :=
  if bool_decide (sameGrant uid iid a) then setOnConflict c t a else a.

(** [tx.insert(userInstanceAbilities).values(v).onConflictDoUpdate(...)]
    with target [(userId, instanceId)].

    Modelled from the spec: the table declaration ([@/server/db/schema])
    is not among the routers; the data model gives the ledger two unique
    keys, the pair [(userId, instanceId)] and [token].  A row that meets
    the pair takes the [set] clause; otherwise the row is inserted, which
    the store refuses when its token is already in the table. *)
Definition upsertAbility (env : Env) (v : UserInstanceAbility) (c : bool) (t : Z) : M unit :=
  txStatement env ;;;
  do l <- query userInstanceAbilities;
  if bool_decide (Exists (sameGrant (userId v) (instanceId v)) l)
  then modify (with_userInstanceAbilities (onConflict (userId v) (instanceId v) c t <$> l))
  else if bool_decide (token v ∈ token <$> l)
  then throw (StoreError UniqueViolation)
  else modify (with_userInstanceAbilities (l ++ [v])).

(** [for (const x of l) { await body(x) }] *)
Fixpoint forEach {A} (l : list A) (body : A → M unit) : M unit :=
  match l with
  | [] => ret tt
  | x :: l' => body x ;;; forEach l' body
  end.

Definition activeUserIds (d : Db) : list string :=
  user_id <$> filter (λ u, isActive u = true) (users d).

Definition grantStep (env : Env) (input_instanceId : string) (id : string) : M unit :=
  do tok <- cuid env;
  do t1 <- now env;
  do t2 <- now env;
  upsertAbility env (mkAbility id input_instanceId tok true t1) true t2.

Definition grantToAllActiveUsers (env : Env) (input_instanceId : string) : M unit :=
  do userIds <- query activeUserIds;
  transaction (forEach userIds (grantStep env input_instanceId)).

(** ** serviceInstance.update and serviceInstance.updateData *)

(** [ServiceInstanceUpdateSchema]: every field optional. *)
Record UpdateInput := mkUpdateInput {
  ui_id : option string;
  ui_columns : gmap string string;
  ui_data : option string
}.

(** JavaScript's [!input.id]: true for [undefined] and for the empty
    string. *)
Definition idMissing (id : option string) : bool :=
  match id with
  | None => true
  | Some s => bool_decide (s = EmptyString)
  end.

(** A schema validates a value and returns its shaped copy. *)
Definition Schema (A B : Type) : Type := A → option B.

(** [schema.parse(x)] for an object schema: [undefined] is rejected. *)
Definition parse {A B} (schema : Schema A B) (x : option A) : M B :=
  match x with
  | None => throw ZodError
  | Some a => match schema a with
              | Some b => ret b
              | None => throw ZodError
              end
  end.

(** [schema.array().parse(l)] *)
Definition parseArray {A B} (schema : Schema A B) (l : list A) : M (list B) :=
  match mapM schema l with
  | Some bs => ret bs
  | None => throw ZodError
  end.

(** [db.update(serviceInstances).set(f).where(eq(id, i)).returning()]:
    the rows that meet the condition are rewritten in place and
    returned. *)
Definition updateInstances (i : string) (f : ServiceInstance → ServiceInstance)
  : M (list ServiceInstance) :=
  modify (λ d, with_serviceInstances
                 ((λ r, if bool_decide (si_id r = i) then f r else r) <$> serviceInstances d) d) ;;;
  query (λ d, filter (λ r, si_id r = i) (serviceInstances d)).

(** [{ ...input, updatedAt }]: fields the input carries replace the
    row's, fields it leaves out are kept. *)
Definition spreadInput (i : string) (input : UpdateInput) (t : Z) (r : ServiceInstance)
  : ServiceInstance :=
  mkServiceInstance i (ui_columns input ∪ si_columns r)
                    (default (si_data r) (ui_data input)) (si_createdAt r) t.

Definition setData (data : option string) (t : Z) (r : ServiceInstance) : ServiceInstance :=
  mkServiceInstance (si_id r) (si_columns r) (default (si_data r) data) (si_createdAt r) t.

Section Routers.
Context {AdminView WithTokenView : Type}.
Variable ServiceInstanceAdminSchema : Schema ServiceInstance AdminView.
Variable ServiceInstanceWithToken : Schema (ServiceInstance * string) WithTokenView.
Variable env : Env.

Definition update (input : UpdateInput) : M AdminView :=
  if idMissing (ui_id input)
  then throw (TRPCError BAD_REQUEST "ID is required")
  else
    let i := default EmptyString (ui_id input) in
    do t <- now env;
    do result <- updateInstances i (spreadInput i input t);
    parse ServiceInstanceAdminSchema (head result).

Definition updateData (input : UpdateInput) : M AdminView :=
  if idMissing (ui_id input)
  then throw (TRPCError BAD_REQUEST "ID is required")
  else
    let i := default EmptyString (ui_id input) in
    do t <- now env;
    do result <- updateInstances i (setData (ui_data input) t);
    parse ServiceInstanceAdminSchema (head result).

(** ** serviceInstance.getAllWithToken *)

(** [from(serviceInstances).innerJoin(userInstanceAbilities, on)]
    selecting the instance and the grant's token. *)
Definition joinGrants (uid : string) (d : Db) : list (ServiceInstance * string) :=
  s ← serviceInstances d;
  a ← filter (λ a, instanceId a = si_id s ∧ userId a = uid ∧ canUse a = true)
             (userInstanceAbilities d);
  [(s, token a)].

Definition getAllWithToken (ctx_user : User) : M (list WithTokenView) :=
  do result <- query (joinGrants (user_id ctx_user));
  parseArray ServiceInstanceWithToken result.
End Routers.

(** ** serviceInstance.delete *)

Definition deleteAbilitiesOf (env : Env) (id : string) : M unit :=
  txStatement env ;;;
  modify (λ d, with_userInstanceAbilities
                 (filter (λ a, instanceId a ≠ id) (userInstanceAbilities d)) d).

Definition deleteInstance (env : Env) (id : string) : M unit :=
  txStatement env ;;;
  modify (λ d, with_serviceInstances
                 (filter (λ r, si_id r ≠ id) (serviceInstances d)) d).

Definition deleteLogsOf (env : Env) (id : string) : M unit :=
  txStatement env ;;;
  modify (λ d, with_resourceUsageLogs
                 (filter (λ g, log_instanceId g ≠ id) (resourceUsageLogs d)) d).

Definition delete (env : Env) (id : string) (deleteLogs : bool) : M unit :=
  transaction (
    deleteAbilitiesOf env id ;;;
    deleteInstance env id ;;;
    if deleteLogs then deleteLogsOf env id else ret tt).

(** ** user.login and user.changePassword *)

Definition hashPw (env : Env) (password : string) : M string := λ w,
  (Ok (hashPassword env (saltDraws w) password),
   mkWorld (db w) (sessions w) (cookie w) (cuidCalls w) (clockReads w)
           (S (saltDraws w)) (sessionDraws w) (txStmts w)
           (pwOps w ++ [OpHash password])).

Definition verifyPw (env : Env) (password hashed : string) : M bool := λ w,
  (Ok (verifyPassword env password hashed),
   mkWorld (db w) (sessions w) (cookie w) (cuidCalls w) (clockReads w)
           (saltDraws w) (sessionDraws w) (txStmts w)
           (pwOps w ++ [OpVerify password hashed])).

(** [lucia.createSession(userId, attributes)] *)
Definition createSession (env : Env) (uid : string) (ip : option string) : M Session := λ w,
  let s := mkSession (newSessionId env (sessionDraws w)) uid ip in
  (Ok s,
   mkWorld (db w) (sessions w ++ [s]) (cookie w) (cuidCalls w) (clockReads w)
           (saltDraws w) (S (sessionDraws w)) (txStmts w) (pwOps w)).

(** [cookies().set(lucia.createSessionCookie(id))] *)
Definition setSessionCookie (sid : string) : M unit := λ w,
  (Ok tt,
   mkWorld (db w) (sessions w) (Some sid) (cuidCalls w) (clockReads w)
           (saltDraws w) (sessionDraws w) (txStmts w) (pwOps w)).

Definition login (env : Env) (input_username input_password : string) : M unit :=
  do user <- query (λ d, findFirst (λ u, username u = input_username) (users d));
  match user with
  | None => throw (TRPCError UNAUTHORIZED "Wrong username or password")
  | Some user =>
      do validPassword <- verifyPw env input_password (hashedPassword user);
      if negb validPassword
      then throw (TRPCError UNAUTHORIZED "Wrong username or password")
      else
        do session <- createSession env (user_id user) None;
        setSessionCookie (session_id session)
  end.

Definition setHashedPassword (h : string) (u : User) : User :=
  mkUser (user_id u) (username u) h (role u) (isActive u).

(** [ctx.db.user.update({ where: { id }, data })]: the row with that
    key is rewritten and returned; the store raises when there is none. *)
Definition updateUser (id : string) (f : User → User) : M User :=
  do found <- query (λ d, findFirst (λ u, user_id u = id) (users d));
  match found with
  | None => throw (StoreError RecordNotFound)
  | Some u =>
      modify (λ d, with_users
                     ((λ r, if bool_decide (user_id r = id) then f r else r) <$> users d) d) ;;;
      ret (f u)
  end.

Definition changePassword (env : Env) (ctx_user : User) (input_id input_password : string)
  : M User :=
  do hashed <- hashPw env input_password;
  if bool_decide (role ctx_user ≠ ADMIN) && bool_decide (input_id ≠ user_id ctx_user)
  then throw (TRPCError FORBIDDEN "You can only change your own password")
  else updateUser input_id (setHashedPassword hashed).
(** ** The input schema of verifyUserAbility

    [requestIp] and [userIp] are [z.string().ip().nullable()]: null, or a
    string the validation library takes for an address.  Which strings
    those are, and the message of the BAD_REQUEST the procedure answers
    otherwise, are the library's; both are parameters.  The body runs
    only on an input that passes. *)

Definition ipAccepted (isIp : string → bool) (address : option string) : bool :=
  match address with
  | None => true
  | Some s => isIp s
  end.

Definition verifyUserAbilityProcedure (isIp : string → bool) (issues : VerifyInput → string)
    (input : VerifyInput) : M string :=
  if ipAccepted isIp (vi_requestIp input) && ipAccepted isIp (vi_userIp input)
  then verifyUserAbility input
  else throw (TRPCError BAD_REQUEST (issues input)).

(** ** serviceInstance.getById *)

Definition getById {UserReadView} (ServiceInstanceUserReadSchema : Schema ServiceInstance UserReadView)
    (input_id : string) : M UserReadView :=
  do result <- query (λ d, findFirst (λ r, si_id r = input_id) (serviceInstances d));
  match result with
  | None => throw (TRPCError NOT_FOUND "Service instance not found")
  | Some r => parse ServiceInstanceUserReadSchema (Some r)
  end.

(** ** user.logout and user.updateSelf *)

(** [lucia.invalidateSession(id)]: the session store forgets the
    session. *)
Definition invalidateSession (sid : string) : M unit := λ w,
  (Ok tt,
   mkWorld (db w) (filter (λ s, session_id s ≠ sid) (sessions w)) (cookie w) (cuidCalls w)
           (clockReads w) (saltDraws w) (sessionDraws w) (txStmts w) (pwOps w)).

(** [cookies().delete(lucia.sessionCookieName)] *)
Definition deleteSessionCookie : M unit := λ w,
  (Ok tt,
   mkWorld (db w) (sessions w) None (cuidCalls w) (clockReads w)
           (saltDraws w) (sessionDraws w) (txStmts w) (pwOps w)).

Definition logout (ctx_session : Session) : M unit :=
  invalidateSession (session_id ctx_session) ;;;
  deleteSessionCookie.

(** [data: { ...input }]: the fields the input carries, written over the
    row; which fields [UserUpdateSelfSchema] admits is not part of the
    router, so the write is a parameter. *)
Definition updateSelf {UserView} (UserReadSchema : Schema User UserView)
    (ctx_user : User) (input : User → User) : M UserView :=
  do result <- updateUser (user_id ctx_user) input;
  parse UserReadSchema (Some result).

(** ** The login page

    The state the page's submit handler reads and writes: the remembered
    login kept in local storage, the form's fields and errors, the toasts
    shown, the routes pushed and the errors logged.  A string's characters
    stand for its code units. *)

Record LoginValues := mkLoginValues {
  lv_username : string;
  lv_password : string;
  lv_rememberMe : bool
}.

(** How the awaited [loginMutation.mutateAsync(...)] ends. *)
Inductive Attempt :=
| Resolved
| RejectedTRPC (message : string)
| RejectedOther.

Record LoginPage := mkLoginPage {
  loginFormRemember : option (string * bool);
  fields : LoginValues;
  error_username : option string;
  error_password : option string;
  toasts : list string;
  pushed : list string;
  logged : nat
}.

(** The form's [defaultValues], read from the remembered login. *)
Definition defaultValues (remembered : option (string * bool)) : LoginValues :=
  mkLoginValues (from_option fst EmptyString remembered) EmptyString
                (from_option snd true remembered).

Definition loadPage (remembered : option (string * bool)) : LoginPage :=
  mkLoginPage remembered (defaultValues remembered) None None [] [] 0.

Definition onSubmit (attempt : Attempt) (values : LoginValues) (p : LoginPage) : LoginPage :=
  let remembered :=
    if lv_rememberMe values then Some (lv_username values, true) else None in
  match attempt with
  | Resolved =>
      mkLoginPage remembered
                  (mkLoginValues (lv_username (fields p)) EmptyString (lv_rememberMe (fields p)))
                  None None
                  (toasts p ++ ["Login successful"]) (pushed p ++ ["/dashboard"]) (logged p)
  | RejectedTRPC message =>
      mkLoginPage remembered (fields p) None (Some message)
                  (toasts p) (pushed p) (S (logged p))
  | RejectedOther =>
      mkLoginPage remembered (fields p) None (Some "An error occured")
                  (toasts p) (pushed p) (S (logged p))
  end.

(** [formSchema]: the message of each field that fails its rule. *)
Definition usernameIssue (values : LoginValues) : option string :=
  if String.length (lv_username values) <? 2
  then Some "Username must be at least 2 characters." else None.

Definition passwordIssue (values : LoginValues) : option string :=
  if String.length (lv_password values) <? 6
  then Some "Password must be at least 6 characters." else None.

(** [form.handleSubmit(onSubmit)] with the schema resolver: the handler
    runs on the form's values only when every field passes; otherwise
    the issues become the fields' errors. *)
Definition handleSubmit (attempt : Attempt) (p : LoginPage) : LoginPage :=
  match usernameIssue (fields p), passwordIssue (fields p) with
  | None, None => onSubmit attempt (fields p) p
  | eu, ep =>
      mkLoginPage (loginFormRemember p) (fields p) eu ep (toasts p) (pushed p) (logged p)
  end.

(** ** The password primitive *)



(** ** The keys of the ledger

    The data model's two unique keys, as predicates on a store. *)

Definition keyOf (a : UserInstanceAbility) : string * string := (userId a, instanceId a).
Definition keyToken (a : UserInstanceAbility) : string * string * string :=
  (userId a, instanceId a, token a).

Definition uniqueTokens (d : Db) : Prop := NoDup (token <$> userInstanceAbilities d).
Definition uniqueGrants (d : Db) : Prop := NoDup (keyOf <$> userInstanceAbilities d).

(** The tokens a grant run started in [w] draws for [n] users. *)
Definition drawnTokens (env : Env) (w : World) (n : nat) : list string :=
  createCUID env <$> seq (cuidCalls w) n.

(** ** The effect of a grant run on the ledger

    One upsert of the loop either rewrites the rows of the pair or appends
    a row carrying the drawn token; a run is a sequence of them, one per
    user id, each with the token drawn for it. *)

Inductive GrantStep (iid uid tok : string)
  : list UserInstanceAbility → list UserInstanceAbility → Prop :=
| GrantStep_conflict l t :
    Exists (sameGrant uid iid) l →
    GrantStep iid uid tok l (onConflict uid iid true t <$> l)
| GrantStep_insert l t :
    ¬ Exists (sameGrant uid iid) l →
    tok ∉ token <$> l →
    GrantStep iid uid tok l (l ++ [mkAbility uid iid tok true t]).

Inductive GrantRun (iid : string)
  : list string → list string → list UserInstanceAbility → list UserInstanceAbility → Prop :=
| GrantRun_nil l : GrantRun iid [] [] l l
| GrantRun_cons uid ids tok toks l l1 l2 :
    GrantStep iid uid tok l l1 →
    GrantRun iid ids toks l1 l2 →
    GrantRun iid (uid :: ids) (tok :: toks) l l2.

(** The store aborts no statement. *)
Definition noAborts (env : Env) : Prop := ∀ k, txAborts env k = false.

(** ** Sample data *)

Definition sampleLedger : list UserInstanceAbility :=
  [ mkAbility "u1" "i1" "t1" true 0%Z;
    mkAbility "u2" "i1" "t2" false 0%Z;
    mkAbility "u1" "i2" "t3" true 0%Z ].

Definition worldOf (d : Db) : World := mkWorld d [] None 0 0 0 0 0 [].

Definition sampleWorld : World := worldOf (mkDb [] [] sampleLedger []).

Definition sampleEnv : Env :=
  mkEnv (λ n, "c" +:+ pretty n)
        (λ n, Z.of_nat n)
        (λ _ p, "$" +:+ p)
        (λ p h, bool_decide (h = "$" +:+ p))
        (λ n, "s" +:+ pretty n)
        (λ _, false).


Definition sampleInstances : list ServiceInstance :=
  [ mkServiceInstance "i1" ∅ "{}" 0%Z 0%Z;
    mkServiceInstance "i2" ∅ "{}" 0%Z 0%Z ].

Definition sampleLogs : list ResourceUsageLog :=
  [ mkLog "i1" "a"; mkLog "i2" "b"; mkLog "i1" "c" ].

Definition sampleUsers : list User :=
  [ mkUser "u1" "alice" "$secret" ADMIN true;
    mkUser "u2" "bob" "$hunter2" USER true;
    mkUser "u3" "carol" "$letmein" USER false;
    mkUser "u4" "dave" "$qwerty" USER true ].

Definition sampleDb : Db := mkDb sampleUsers sampleInstances sampleLedger sampleLogs.


(** * Properties *)

(** ** The monad and the lookups *)

Ltac run := unfold bind, query, modify, ret, throw; simpl.

Lemma findFirst_Some {A} (P : A → Prop) `{∀ x, Decision (P x)} (l : list A) x :
  findFirst P l = Some x → P x ∧ x ∈ l.
Proof.
  unfold findFirst. destruct (list_find P l) as [[i y]|] eqn:E; simpl; [|done].
  intros [= <-]. apply list_find_Some in E as (Hl & HP & _).
  split; [done|]. by eapply list_elem_of_lookup_2.
Qed.

Lemma findFirst_None {A} (P : A → Prop) `{∀ x, Decision (P x)} (l : list A) :
  findFirst P l = None ↔ ∀ x, x ∈ l → ¬ P x.
Proof.
  unfold findFirst. rewrite fmap_None, list_find_None, Forall_forall. done.
Qed.

Lemma findFirst_is_Some {A} (P : A → Prop) `{∀ x, Decision (P x)} (l : list A) x :
  x ∈ l → P x → is_Some (findFirst P l).
Proof.
  intros Hx HP. destruct (findFirst P l) eqn:E; [by eexists|].
  rewrite findFirst_None in E. by destruct (E x Hx).
Qed.

Lemma NoDup_fmap_eq {A B} (f : A → B) (l : list A) a b :
  NoDup (f <$> l) → a ∈ l → b ∈ l → f a = f b → a = b.
Proof.
  induction l as [|x l IH]; simpl; intros Hnd Ha Hb Hf.
  - by apply elem_of_nil in Ha.
  - apply NoDup_cons in Hnd as [Hx Hnd].
    apply elem_of_cons in Ha as [->|Ha]; apply elem_of_cons in Hb as [->|Hb]; auto.
    + destruct Hx. rewrite Hf. by apply list_elem_of_fmap_2.
    + destruct Hx. rewrite <- Hf. by apply list_elem_of_fmap_2.
Qed.

(** ** verifyUserAbility *)

Lemma lookup_by_token (d : Db) input a :
  uniqueTokens d → a ∈ userInstanceAbilities d → matchesGrant input a →
  findFirst (matchesGrant input) (userInstanceAbilities d) = Some a.
Proof.
  intros Hu Ha Hm.
  destruct (findFirst_is_Some _ _ _ Ha Hm) as [b Hb]. rewrite Hb. f_equal.
  apply findFirst_Some in Hb as [[_ Hbt] Hbl]. destruct Hm as [_ Hat].
  eapply NoDup_fmap_eq; eauto. congruence.
Qed.

Lemma verifyUserAbility_state input w : snd (verifyUserAbility input w) = w.
Proof.
  unfold verifyUserAbility. run.
  destruct (findFirst _ _); [|done]. by repeat case_bool_decide.
Qed.

(** C1: on a ledger whose tokens are unique, for every grant row whose
    (instanceId, token) pair is the input's and whose canUse is true,
    verifyUserAbility succeeds and returns exactly that row's userId; the
    store is left as it was. *)
Theorem verifyUserAbility_returns_owner (w : World) (input : VerifyInput)
    (a : UserInstanceAbility) :
  uniqueTokens (db w) →
  a ∈ userInstanceAbilities (db w) →
  instanceId a = vi_instanceId input →
  token a = vi_userToken input →
  canUse a = true →
  verifyUserAbility input w = (Ok (userId a), w).
Proof.
  intros Hu Ha Hi Ht Hc.
  unfold verifyUserAbility. run.
  rewrite (lookup_by_token _ _ a Hu Ha) by done.
  case_bool_decide; [done|].
  case_bool_decide; [congruence|done].
Qed.

Lemma verifyUserAbility_returns_owner_witness :
  verifyUserAbility (mkVerifyInput "i1" "t1" None None) sampleWorld = (Ok "u1", sampleWorld).
Proof.
  apply (verifyUserAbility_returns_owner sampleWorld (mkVerifyInput "i1" "t1" None None)
           (mkAbility "u1" "i1" "t1" true 0%Z)).
  - unfold uniqueTokens. compute_done.
  - compute_done.
  - reflexivity.
  - reflexivity.
  - reflexivity.
Defined.

(** C2: verifyUserAbility fails UNAUTHORIZED exactly when no ledger row
    matches the input's (instanceId, token) pair; and, tokens being unique,
    it fails FORBIDDEN whenever a matching row has canUse false. *)
Theorem verifyUserAbility_failures (w : World) (input : VerifyInput) :
  (failsWith (fst (verifyUserAbility input w)) UNAUTHORIZED ↔
     ∀ a, a ∈ userInstanceAbilities (db w) → ¬ matchesGrant input a)
  ∧ (uniqueTokens (db w) →
     ∀ a, a ∈ userInstanceAbilities (db w) → matchesGrant input a → canUse a = false →
          failsWith (fst (verifyUserAbility input w)) FORBIDDEN).
Proof.
  split.
  - unfold verifyUserAbility. run.
    destruct (findFirst (matchesGrant input) (userInstanceAbilities (db w))) as [row|] eqn:E.
    + apply findFirst_Some in E as [Hm Hl].
      split.
      * destruct Hm as [Hi _]. case_bool_decide; [done|].
        case_bool_decide; intros [m Hm']; simpl in Hm'; congruence.
      * intros Hno. by destruct (Hno row Hl).
    + rewrite findFirst_None in E. split; [done|].
      intros _. by eexists.
  - intros Hu a Ha Hm Hc.
    unfold verifyUserAbility. run.
    rewrite (lookup_by_token _ _ a Hu Ha Hm). destruct Hm as [Hi _].
    case_bool_decide; [done|].
    case_bool_decide; [by eexists|done].
Qed.

Lemma verifyUserAbility_failures_witness :
  failsWith (fst (verifyUserAbility (mkVerifyInput "i1" "t2" None None) sampleWorld)) FORBIDDEN
  ∧ failsWith (fst (verifyUserAbility (mkVerifyInput "i1" "t3" None None) sampleWorld))
              UNAUTHORIZED.
Proof.
  split.
  - apply (proj2 (verifyUserAbility_failures sampleWorld (mkVerifyInput "i1" "t2" None None)))
      with (a := mkAbility "u2" "i1" "t2" false 0%Z).
    + unfold uniqueTokens. compute_done.
    + compute_done.
    + compute_done.
    + reflexivity.
  - apply (proj1 (verifyUserAbility_failures sampleWorld (mkVerifyInput "i1" "t3" None None))).
    apply Forall_forall. compute_done.
Defined.

(** C9: whatever the ledger and the input, a row returned by the lookup
    of verifyUserAbility carries the input's instanceId, so the second
    guard, kept in the body, never fires: the procedure never fails with
    its message. *)
Theorem verifyUserAbility_recheck_unreachable (w : World) (input : VerifyInput) :
  (∀ row, findFirst (matchesGrant input) (userInstanceAbilities (db w)) = Some row →
          instanceId row = vi_instanceId input)
  ∧ fst (verifyUserAbility input w) ≠ Err (TRPCError UNAUTHORIZED "Invalid instanceId").
Proof.
  split.
  - intros row E. by apply findFirst_Some in E as [[Hi _] _].
  - unfold verifyUserAbility. run.
    destruct (findFirst (matchesGrant input) (userInstanceAbilities (db w))) as [row|] eqn:E.
    + apply findFirst_Some in E as [[Hi _] _].
      case_bool_decide; [done|].
      case_bool_decide; simpl; congruence.
    + simpl. intros [= H].
Qed.

Lemma verifyUserAbility_recheck_unreachable_witness :
  instanceId (mkAbility "u1" "i2" "t3" true 0%Z) = "i2"
  ∧ fst (verifyUserAbility (mkVerifyInput "i2" "t3" None None) sampleWorld)
    ≠ Err (TRPCError UNAUTHORIZED "Invalid instanceId").
Proof.
  destruct (verifyUserAbility_recheck_unreachable sampleWorld
              (mkVerifyInput "i2" "t3" None None)) as [Hrow Hguard].
  split; [|exact Hguard].
  apply (Hrow (mkAbility "u1" "i2" "t3" true 0%Z)). reflexivity.
Defined.

(** Without the unique key on tokens the lookup would answer for the
    first matching row only. *)
Example verify_first_match :
  fst (verifyUserAbility (mkVerifyInput "i1" "t1" None None)
         (worldOf (mkDb [] [] [ mkAbility "u2" "i1" "t1" false 0%Z;
                                mkAbility "u1" "i1" "t1" true 0%Z ] [])))
  = Err (TRPCError FORBIDDEN "You are not permitted to use this instance").
Proof. reflexivity. Qed.

(** ** update and updateData *)

Lemma with_db_same (w : World) : with_db (db w) w = w.
Proof. by destruct w. Qed.

Lemma fmap_unless_id {A} (P : A → Prop) `{∀ x, Decision (P x)} (f : A → A) (l : list A) :
  (∀ x, x ∈ l → ¬ P x) → (λ x, if bool_decide (P x) then f x else x) <$> l = l.
Proof.
  induction l as [|x l IH]; intros Hno; simpl; [done|].
  rewrite bool_decide_eq_false_2 by (apply Hno; left).
  f_equal. apply IH. intros y Hy. apply Hno. by right.
Qed.

Lemma filter_none {A} (P : A → Prop) `{∀ x, Decision (P x)} (l : list A) :
  (∀ x, x ∈ l → ¬ P x) → filter P l = [].
Proof.
  induction l as [|x l IH]; intros Hno; [done|].
  rewrite filter_cons_False by (apply Hno; left).
  apply IH. intros y Hy. apply Hno. by right.
Qed.

Lemma updateInstances_unknown (i : string) f (w : World) :
  (∀ r, r ∈ serviceInstances (db w) → si_id r ≠ i) →
  updateInstances i f w = (Ok [], w).
Proof.
  intros Hno. unfold updateInstances. run.
  rewrite (fmap_unless_id (λ r, si_id r = i)) by done.
  rewrite filter_none by done.
  by destruct w as [[]].
Qed.

(** C8: update and updateData, on an input with no id field, fail
    BAD_REQUEST and leave the whole world, the service-instance table
    included, exactly as it was. *)
Theorem update_without_id {AdminView} (schema : Schema ServiceInstance AdminView)
    (env : Env) (w : World) (columns : gmap string string) (data : option string) :
  update schema env (mkUpdateInput None columns data) w
    = (Err (TRPCError BAD_REQUEST "ID is required"), w)
  ∧ updateData schema env (mkUpdateInput None columns data) w
    = (Err (TRPCError BAD_REQUEST "ID is required"), w).
Proof. split; reflexivity. Qed.

Lemma unknown_id_outcome {AdminView} (schema : Schema ServiceInstance AdminView)
    (env : Env) (w : World) (i : string) (f : Z → ServiceInstance → ServiceInstance) :
  (∀ r, r ∈ serviceInstances (db w) → si_id r ≠ i) →
  ∃ w', (do t <- now env;
         do result <- updateInstances i (f t);
         parse schema (head result)) w = (Err ZodError, w') ∧ db w' = db w.
Proof.
  intros Hno. unfold bind at 1. unfold now at 1.
  eexists. unfold bind. rewrite updateInstances_unknown by done. simpl. done.
Qed.

Lemma ZodError_not_TRPC {A} (r : result A) (c : TRPCCode) :
  r = Err ZodError → ¬ failsWith r c.
Proof. intros -> [m Hm]. discriminate. Qed.

(** C10: update and updateData, on a non-empty id that no service
    instance carries, change no row, get an empty result set from the
    store, and throw the schema-validation error raised by parsing its
    missing first element; the failure is neither NOT_FOUND nor
    BAD_REQUEST. *)
Theorem update_unknown_id {AdminView} (schema : Schema ServiceInstance AdminView)
    (env : Env) (w : World) (input : UpdateInput) (i : string) :
  ui_id input = Some i →
  i ≠ EmptyString →
  (∀ r, r ∈ serviceInstances (db w) → si_id r ≠ i) →
  let r1 := update schema env input w in
  let r2 := updateData schema env input w in
  (∀ f w0, db w0 = db w → fst (updateInstances i f w0) = Ok [])
  ∧ (fst r1 = Err ZodError ∧ db (snd r1) = db w
     ∧ ¬ failsWith (fst r1) NOT_FOUND ∧ ¬ failsWith (fst r1) BAD_REQUEST)
  ∧ (fst r2 = Err ZodError ∧ db (snd r2) = db w
     ∧ ¬ failsWith (fst r2) NOT_FOUND ∧ ¬ failsWith (fst r2) BAD_REQUEST).
Proof.
  intros Hid Hne Hno r1 r2. split; [|split].
  - intros f w0 Hw0. rewrite updateInstances_unknown; [done|]. by rewrite Hw0.
  - subst r1. unfold update. rewrite Hid. simpl. rewrite bool_decide_eq_false_2 by done.
    destruct (unknown_id_outcome schema env w i (spreadInput i input) Hno) as (w' & -> & Hdb).
    simpl. repeat split; [done| |]; by apply ZodError_not_TRPC.
  - subst r2. unfold updateData. rewrite Hid. simpl. rewrite bool_decide_eq_false_2 by done.
    destruct (unknown_id_outcome schema env w i (setData (ui_data input)) Hno) as (w' & -> & Hdb).
    simpl. repeat split; [done| |]; by apply ZodError_not_TRPC.
Qed.

Lemma update_unknown_id_witness :
  fst (update Some sampleEnv (mkUpdateInput (Some "i9") ∅ None) (worldOf sampleDb)) = Err ZodError
  ∧ fst (updateData Some sampleEnv (mkUpdateInput (Some "i9") ∅ None) (worldOf sampleDb))
    = Err ZodError.
Proof.
  assert (H := update_unknown_id Some sampleEnv (worldOf sampleDb)
                 (mkUpdateInput (Some "i9") ∅ None) "i9").
  simpl in H. split; apply H; try done; apply Forall_forall; compute_done.
Defined.

(** ** delete *)

(** C5: when delete(id, deleteLogs) completes, the grant rows and the
    instance rows left are exactly the former ones that do not reference
    id; with deleteLogs the same holds of the usage-log rows, and without
    it the usage-log table is untouched.  When it does not complete, the
    store is exactly what it was before the call, so no state with only
    some of the deletions applied results.  It completes whenever the
    store aborts none of its statements. *)
Theorem delete_cascade (env : Env) (w : World) (id : string) (deleteLogs : bool) :
  let r := delete env id deleteLogs w in
  let d := db w in
  let d' := db (snd r) in
  (fst r = Ok tt →
     (∀ a, a ∈ userInstanceAbilities d' ↔ a ∈ userInstanceAbilities d ∧ instanceId a ≠ id)
     ∧ (∀ s, s ∈ serviceInstances d' ↔ s ∈ serviceInstances d ∧ si_id s ≠ id)
     ∧ (deleteLogs = true →
          ∀ g, g ∈ resourceUsageLogs d' ↔ g ∈ resourceUsageLogs d ∧ log_instanceId g ≠ id)
     ∧ (deleteLogs = false → resourceUsageLogs d' = resourceUsageLogs d)
     ∧ users d' = users d)
  ∧ (fst r ≠ Ok tt → d' = d)
  ∧ (noAborts env → fst r = Ok tt).
Proof.
  unfold delete, transaction, deleteAbilitiesOf, deleteInstance, deleteLogsOf, txStatement.
  run.
  destruct (txAborts env (txStmts w)) eqn:E1; simpl.
  { split; [done|]. split; [by destruct w as [[]]|]. intros Hn. by rewrite Hn in E1. }
  destruct (txAborts env (S (txStmts w))) eqn:E2; simpl.
  { split; [done|]. split; [by destruct w as [[]]|]. intros Hn. by rewrite Hn in E2. }
  destruct deleteLogs; simpl.
  - destruct (txAborts env (S (S (txStmts w)))) eqn:E3; simpl.
    { split; [done|]. split; [by destruct w as [[]]|]. intros Hn. by rewrite Hn in E3. }
    split; [|done]. intros _.
    split_and!; try done; intros; rewrite list_elem_of_filter; tauto.
  - split; [|done]. intros _.
    split_and!; try done; intros; rewrite list_elem_of_filter; tauto.
Qed.

Lemma delete_cascade_witness :
  noAborts sampleEnv
  ∧ fst (delete sampleEnv "i1" true (worldOf sampleDb)) = Ok tt
  ∧ ∀ g, g ∈ resourceUsageLogs (db (snd (delete sampleEnv "i1" true (worldOf sampleDb))))
         ↔ g ∈ sampleLogs ∧ log_instanceId g ≠ "i1".
Proof.
  assert (noAborts sampleEnv) as Hn by (intros k; reflexivity).
  destruct (delete_cascade sampleEnv (worldOf sampleDb) "i1" true) as (Hok & _ & Hrun).
  split; [exact Hn|]. split; [exact (Hrun Hn)|].
  destruct (Hok (Hrun Hn)) as (_ & _ & Hlogs & _).
  exact (Hlogs eq_refl).
Defined.

(** ** getAllWithToken *)

Lemma joinGrants_spec (uid : string) (d : Db) (s : ServiceInstance) (t : string) :
  (s, t) ∈ joinGrants uid d ↔
  s ∈ serviceInstances d
  ∧ ∃ a, a ∈ userInstanceAbilities d
         ∧ userId a = uid ∧ instanceId a = si_id s ∧ canUse a = true ∧ token a = t.
Proof.
  unfold joinGrants. rewrite list_elem_of_bind. split.
  - intros (s' & Hin & Hs'). apply list_elem_of_bind in Hin as (a & Hin & Ha).
    apply list_elem_of_singleton in Hin as [= -> ->].
    apply list_elem_of_filter in Ha as ((Hi & Hu & Hc) & Ha).
    split; [done|]. by exists a.
  - intros (Hs & a & Ha & Hu & Hi & Hc & Ht). exists s. split; [|done].
    apply list_elem_of_bind. exists a. split.
    + apply list_elem_of_singleton. by rewrite Ht.
    + apply list_elem_of_filter. done.
Qed.

Lemma parseArray_spec {A B} (schema : Schema A B) (l : list A) (w : World) :
  snd (parseArray schema l w) = w
  ∧ (∀ vs, fst (parseArray schema l w) = Ok vs ↔ Forall2 (λ x v, schema x = Some v) l vs)
  ∧ (Forall (λ x, is_Some (schema x)) l → ∃ vs, fst (parseArray schema l w) = Ok vs).
Proof.
  unfold parseArray. destruct (mapM schema l) as [bs|] eqn:E.
  - split; [done|]. split.
    + intros vs. rewrite <- mapM_Some, E. simpl. split; congruence.
    + intros _. by exists bs.
  - split; [done|]. split.
    + intros vs. rewrite <- mapM_Some, E. simpl. split; congruence.
    + intros Hall. apply mapM_is_Some in Hall. rewrite E in Hall. by destruct Hall.
Qed.

(** C6: the rows getAllWithToken selects are exactly the pairs of a
    service instance and a token for which some grant row of the caller
    references that instance, has canUse true and carries that token; an
    instance with no such row is paired with nothing.  The procedure
    returns, in that order, the shaped copies of these pairs (and it does
    return whenever the result schema accepts each of them), writing
    nothing. *)
Theorem getAllWithToken_exact {WithTokenView}
    (schema : Schema (ServiceInstance * string) WithTokenView) (ctx_user : User) (w : World) :
  let rows := joinGrants (user_id ctx_user) (db w) in
  let r := getAllWithToken schema ctx_user w in
  (∀ s t, (s, t) ∈ rows ↔
          s ∈ serviceInstances (db w)
          ∧ ∃ a, a ∈ userInstanceAbilities (db w)
                 ∧ userId a = user_id ctx_user ∧ instanceId a = si_id s
                 ∧ canUse a = true ∧ token a = t)
  ∧ (∀ vs, fst r = Ok vs ↔ Forall2 (λ x v, schema x = Some v) rows vs)
  ∧ (Forall (λ x, is_Some (schema x)) rows → ∃ vs, fst r = Ok vs)
  ∧ snd r = w.
Proof.
  intros rows r. split; [intros s t; apply joinGrants_spec|].
  subst r. unfold getAllWithToken. run. fold rows.
  destruct (parseArray_spec schema rows w) as (Hw & Hiff & Hall). done.
Qed.

Lemma getAllWithToken_exact_witness :
  fst (getAllWithToken Some (mkUser "u1" "alice" "$secret" ADMIN true) (worldOf sampleDb))
  = Ok [ (mkServiceInstance "i1" ∅ "{}" 0%Z 0%Z, "t1");
         (mkServiceInstance "i2" ∅ "{}" 0%Z 0%Z, "t3") ].
Proof.
  apply (getAllWithToken_exact Some (mkUser "u1" "alice" "$secret" ADMIN true)
           (worldOf sampleDb)).
  repeat constructor.
Defined.

(** ** changePassword *)

Lemma hashPw_run (env : Env) (p : string) (w : World) :
  ∃ w', hashPw env p w = (Ok (hashPassword env (saltDraws w) p), w') ∧ db w' = db w.
Proof. by eexists. Qed.

Lemma updateUser_found (id : string) (f : User → User) (w : World) (u : User) :
  u ∈ users (db w) → user_id u = id →
  ∃ u', fst (updateUser id f w) = Ok u'
        ∧ users (db (snd (updateUser id f w)))
          = (λ r, if bool_decide (user_id r = id) then f r else r) <$> users (db w)
        ∧ serviceInstances (db (snd (updateUser id f w))) = serviceInstances (db w)
        ∧ userInstanceAbilities (db (snd (updateUser id f w))) = userInstanceAbilities (db w)
        ∧ resourceUsageLogs (db (snd (updateUser id f w))) = resourceUsageLogs (db w).
Proof.
  intros Hu Hid. unfold updateUser. run.
  destruct (findFirst_is_Some (λ u, user_id u = id) _ u Hu Hid) as [v Hv].
  rewrite Hv. simpl. by eexists.
Qed.




(** ** login *)

Lemma login_wrong_password (env : Env) (w : World) (name password : string) (u : User) :
  findFirst (λ u, username u = name) (users (db w)) = Some u →
  verifyPassword env password (hashedPassword u) = false →
  fst (login env name password w)
    = Err (TRPCError UNAUTHORIZED "Wrong username or password")
  ∧ pwOps (snd (login env name password w))
    = pwOps w ++ [OpVerify password (hashedPassword u)].
Proof.
  intros Hu Hv. unfold login. run. rewrite Hu. unfold verifyPw. simpl. by rewrite Hv.
Qed.

(** C4: what login does for a username that matches no user.  It fails
    UNAUTHORIZED with the message of the wrong-password path, but the
    world it leaves is the one it found: the password primitive is not
    called, so no comparison of the supplied password against a decoy
    is performed. *)
Theorem login_unknown_user_skips_comparison (env : Env) (w : World) (name password : string) :
  (∀ u, u ∈ users (db w) → username u ≠ name) →
  fst (login env name password w)
    = Err (TRPCError UNAUTHORIZED "Wrong username or password")
  ∧ snd (login env name password w) = w
  ∧ pwOps (snd (login env name password w)) = pwOps w.
Proof.
  intros Hno. unfold login. run.
  assert (findFirst (λ u, username u = name) (users (db w)) = None) as ->
    by (by apply findFirst_None).
  done.
Qed.

Lemma login_unknown_user_skips_comparison_witness :
  pwOps (snd (login sampleEnv "mallory" "hunter2" (worldOf sampleDb))) = []
  ∧ pwOps (snd (login sampleEnv "bob" "wrong" (worldOf sampleDb)))
    = [OpVerify "wrong" "$hunter2"]
  ∧ fst (login sampleEnv "mallory" "hunter2" (worldOf sampleDb))
    = fst (login sampleEnv "bob" "wrong" (worldOf sampleDb)).
Proof.
  assert (∀ u, u ∈ users (db (worldOf sampleDb)) → username u ≠ "mallory") as Hno
    by (apply Forall_forall; compute_done).
  destruct (login_unknown_user_skips_comparison sampleEnv (worldOf sampleDb)
              "mallory" "hunter2" Hno) as (Hr & _ & Hops).
  destruct (login_wrong_password sampleEnv (worldOf sampleDb) "bob" "wrong"
              (mkUser "u2" "bob" "$hunter2" USER true) eq_refl eq_refl) as (Hr' & Hops').
  split; [exact Hops|]. split; [exact Hops'|]. by rewrite Hr, Hr'.
Defined.

(** ** grantToAllActiveUsers *)

Section GrantStep.
Variables iid uid tok : string.
Implicit Types l : list UserInstanceAbility.

Lemma onConflict_keyToken c t a : keyToken (onConflict uid iid c t a) = keyToken a.
Proof. unfold onConflict. by case_bool_decide. Qed.

Lemma onConflict_fmap_keyToken c t l :
  keyToken <$> (onConflict uid iid c t <$> l) = keyToken <$> l.
Proof.
  rewrite <- list_fmap_compose. apply list_fmap_ext. intros _ a _. simpl.
  apply onConflict_keyToken.
Qed.

Lemma GrantStep_keyToken l l' :
  GrantStep iid uid tok l l' → (keyToken <$> l) `prefix_of` (keyToken <$> l').
Proof.
  destruct 1.
  - by rewrite onConflict_fmap_keyToken.
  - rewrite fmap_app. by apply prefix_app_r.
Qed.

Lemma GrantStep_tokens l l' t :
  GrantStep iid uid tok l l' → t ∈ token <$> l' → t ∈ token <$> l ∨ t = tok.
Proof.
  destruct 1 as [l t0 _ | l t0 _ _]; intros Ht.
  - left. apply list_elem_of_fmap in Ht as (a' & -> & Ha').
    apply list_elem_of_fmap in Ha' as (a & -> & Ha).
    apply list_elem_of_fmap. exists a. split; [|done].
    unfold onConflict. by case_bool_decide.
  - rewrite fmap_app, elem_of_app in Ht. destruct Ht as [Ht|Ht]; [by left|].
    right. simpl in Ht. by apply list_elem_of_singleton in Ht.
Qed.

Lemma GrantStep_granted l l' :
  GrantStep iid uid tok l l' → ∃ a, a ∈ l' ∧ sameGrant uid iid a ∧ canUse a = true.
Proof.
  destruct 1 as [l t Hex | l t _ _].
  - apply Exists_exists in Hex as (a & Ha & Hs).
    exists (onConflict uid iid true t a). split; [by apply list_elem_of_fmap_2|].
    unfold onConflict. rewrite bool_decide_eq_true_2 by done. done.
  - eexists. split; [apply elem_of_app; right; by left|]. done.
Qed.

Lemma GrantStep_kept l l' a :
  GrantStep iid uid tok l l' → a ∈ l →
  ∃ a', a' ∈ l' ∧ keyToken a' = keyToken a ∧ (canUse a = true → canUse a' = true).
Proof.
  destruct 1 as [l t _ | l t _ _]; intros Ha.
  - exists (onConflict uid iid true t a). split; [by apply list_elem_of_fmap_2|].
    split; [apply onConflict_keyToken|]. unfold onConflict. by case_bool_decide.
  - exists a. split; [apply elem_of_app; by left|done].
Qed.

Lemma GrantStep_origin l l' a' :
  GrantStep iid uid tok l l' → a' ∈ l' →
  (∃ a, a ∈ l ∧ keyToken a = keyToken a')
  ∨ (userId a' = uid ∧ instanceId a' = iid ∧ token a' = tok).
Proof.
  destruct 1 as [l t _ | l t _ _]; intros Ha'.
  - left. apply list_elem_of_fmap in Ha' as (a & -> & Ha).
    exists a. split; [done|]. symmetry. apply onConflict_keyToken.
  - apply elem_of_app in Ha' as [Ha'|Ha'].
    + left. by exists a'.
    + right. apply list_elem_of_singleton in Ha' as ->. done.
Qed.

Lemma GrantStep_others l l' u i :
  GrantStep iid uid tok l l' → (u, i) ≠ (uid, iid) →
  filter (sameGrant u i) l' = filter (sameGrant u i) l.
Proof.
  destruct 1 as [l t _ | l t _ _]; intros Hne.
  - induction l as [|a l IH]; [done|]. rewrite fmap_cons.
    unfold onConflict at 1. case_bool_decide as Hs.
    + destruct Hs as [Hu Hi].
      rewrite !filter_cons_False, IH; [done | |].
      * intros [? ?]. apply Hne. congruence.
      * intros [? ?]. simpl in *. apply Hne. congruence.
    + rewrite !filter_cons, IH. done.
  - rewrite filter_app, filter_cons_False, filter_nil, app_nil_r; [done|].
    intros [? ?]. simpl in *. apply Hne. congruence.
Qed.

Lemma GrantStep_uniqueGrants l l' :
  GrantStep iid uid tok l l' → NoDup (keyOf <$> l) → NoDup (keyOf <$> l').
Proof.
  destruct 1 as [l t _ | l t Hno _]; intros Hnd.
  - replace (keyOf <$> (onConflict uid iid true t <$> l)) with (keyOf <$> l); [done|].
    rewrite <- list_fmap_compose. apply list_fmap_ext. intros _ a _. simpl.
    unfold onConflict. by case_bool_decide.
  - rewrite fmap_app. apply NoDup_app. split; [done|]. split; [|apply NoDup_singleton].
    intros k Hk Hk'. apply list_elem_of_singleton in Hk'. subst k.
    apply list_elem_of_fmap in Hk as (a & [= Hu Hi] & Ha).
    apply Hno, Exists_exists. exists a. done.
Qed.

Lemma GrantStep_uniqueTokens l l' :
  GrantStep iid uid tok l l' → NoDup (token <$> l) → NoDup (token <$> l').
Proof.
  destruct 1 as [l t _ | l t _ Hfresh]; intros Hnd.
  - replace (token <$> (onConflict uid iid true t <$> l)) with (token <$> l); [done|].
    rewrite <- list_fmap_compose. apply list_fmap_ext. intros _ a _. simpl.
    unfold onConflict. by case_bool_decide.
  - rewrite fmap_app. apply NoDup_app. split; [done|]. split; [|apply NoDup_singleton].
    intros k Hk Hk'. apply list_elem_of_singleton in Hk'. by subst k.
Qed.
End GrantStep.

Section GrantRun.
Variable iid : string.
Implicit Types l : list UserInstanceAbility.

Lemma GrantRun_length ids toks l l' :
  GrantRun iid ids toks l l' → length toks = length ids.
Proof. induction 1; simpl; congruence. Qed.

Lemma GrantRun_keyToken ids toks l l' :
  GrantRun iid ids toks l l' → (keyToken <$> l) `prefix_of` (keyToken <$> l').
Proof.
  induction 1 as [|uid ids tok toks l l1 l2 Hstep _ IH]; [done|].
  etrans; [|exact IH]. by eapply GrantStep_keyToken.
Qed.

Lemma GrantRun_kept ids toks l l' a :
  GrantRun iid ids toks l l' → a ∈ l →
  ∃ a', a' ∈ l' ∧ keyToken a' = keyToken a ∧ (canUse a = true → canUse a' = true).
Proof.
  intros Hrun. revert a.
  induction Hrun as [|uid ids tok toks l l1 l2 Hstep _ IH]; intros a Ha.
  - by exists a.
  - destruct (GrantStep_kept _ _ _ _ _ a Hstep Ha) as (a1 & Ha1 & Hk1 & Hc1).
    destruct (IH a1 Ha1) as (a2 & Ha2 & Hk2 & Hc2).
    exists a2. split; [done|]. split; [congruence|auto].
Qed.

Lemma GrantRun_granted ids toks l l' uid :
  GrantRun iid ids toks l l' → uid ∈ ids →
  ∃ a, a ∈ l' ∧ sameGrant uid iid a ∧ canUse a = true.
Proof.
  induction 1 as [|u ids tok toks l l1 l2 Hstep Hrun IH]; intros Hin.
  - by apply elem_of_nil in Hin.
  - apply elem_of_cons in Hin as [->|Hin]; [|by apply IH].
    destruct (GrantStep_granted _ _ _ _ _ Hstep) as (a1 & Ha1 & [Hu Hi] & Hc1).
    destruct (GrantRun_kept _ _ _ _ a1 Hrun Ha1) as (a2 & Ha2 & [= Hu2 Hi2 _] & Hc2).
    exists a2. split; [done|]. split; [split; congruence|auto].
Qed.

Lemma GrantRun_origin ids toks l l' a' :
  GrantRun iid ids toks l l' → a' ∈ l' →
  (∃ a, a ∈ l ∧ keyToken a = keyToken a')
  ∨ (userId a' ∈ ids ∧ instanceId a' = iid ∧ token a' ∈ toks).
Proof.
  induction 1 as [|u ids tok toks l l1 l2 Hstep Hrun IH]; intros Ha'.
  - left. by exists a'.
  - destruct (IH Ha') as [(a1 & Ha1 & Hk1) | (Hu & Hi & Ht)].
    + destruct (GrantStep_origin _ _ _ _ _ a1 Hstep Ha1) as [(a & Ha & Hk) | (Hu & Hi & Ht)].
      * left. exists a. split; [done|congruence].
      * right. injection Hk1 as Hu1 Hi1 Ht1.
        split_and!; [rewrite <- Hu1, Hu; by left | congruence | rewrite <- Ht1, Ht; by left].
    + right. split_and!; [by right | done | by right].
Qed.

Lemma GrantRun_others ids toks l l' uid :
  GrantRun iid ids toks l l' → uid ∉ ids →
  filter (sameGrant uid iid) l' = filter (sameGrant uid iid) l.
Proof.
  induction 1 as [|u ids tok toks l l1 l2 Hstep Hrun IH]; intros Hnot; [done|].
  apply not_elem_of_cons in Hnot as [Hne Hnot].
  rewrite IH by done. eapply GrantStep_others; [done|]. congruence.
Qed.

Lemma GrantRun_other_instances ids toks l l' uid i :
  GrantRun iid ids toks l l' → i ≠ iid →
  filter (sameGrant uid i) l' = filter (sameGrant uid i) l.
Proof.
  induction 1 as [|u ids tok toks l l1 l2 Hstep Hrun IH]; intros Hne; [done|].
  rewrite IH by done. eapply GrantStep_others; [done|]. congruence.
Qed.

Lemma GrantRun_uniqueGrants ids toks l l' :
  GrantRun iid ids toks l l' → NoDup (keyOf <$> l) → NoDup (keyOf <$> l').
Proof. induction 1; eauto using GrantStep_uniqueGrants. Qed.

Lemma GrantRun_uniqueTokens ids toks l l' :
  GrantRun iid ids toks l l' → NoDup (token <$> l) → NoDup (token <$> l').
Proof. induction 1; eauto using GrantStep_uniqueTokens. Qed.
End GrantRun.

Lemma unique_grant_row (l : list UserInstanceAbility) (a : UserInstanceAbility) (u i : string) :
  NoDup (keyOf <$> l) → a ∈ l → sameGrant u i a → filter (sameGrant u i) l = [a].
Proof.
  intros Hnd Ha [Hu Hi].
  induction l as [|b l IH]; [by apply elem_of_nil in Ha|].
  rewrite fmap_cons in Hnd. apply NoDup_cons in Hnd as [Hb Hnd].
  apply elem_of_cons in Ha as [->|Ha].
  - rewrite filter_cons_True by done. f_equal.
    apply filter_none. intros c Hc [Hcu Hci]. apply Hb.
    apply list_elem_of_fmap. exists c. split; [|done]. unfold keyOf. congruence.
  - rewrite filter_cons_False; [by apply IH|].
    intros [Hbu Hbi]. apply Hb. apply list_elem_of_fmap. exists a. split; [|done].
    unfold keyOf. congruence.
Qed.

(** What one iteration of the loop does to the world. *)
Lemma grantStep_run (env : Env) (iid uid : string) (w : World) :
  txAborts env (txStmts w) = false →
  createCUID env (cuidCalls w) ∉ token <$> userInstanceAbilities (db w) →
  ∃ w', grantStep env iid uid w = (Ok tt, w')
        ∧ cuidCalls w' = S (cuidCalls w)
        ∧ users (db w') = users (db w)
        ∧ serviceInstances (db w') = serviceInstances (db w)
        ∧ resourceUsageLogs (db w') = resourceUsageLogs (db w)
        ∧ GrantStep iid uid (createCUID env (cuidCalls w))
            (userInstanceAbilities (db w)) (userInstanceAbilities (db w')).
Proof.
  intros Hab Hfresh.
  unfold grantStep, upsertAbility, cuid, now, txStatement. run. rewrite Hab. simpl.
  case_bool_decide as Hex.
  - eexists. split; [done|]. simpl. split_and!; try done. by constructor.
  - rewrite bool_decide_eq_false_2 by done.
    eexists. split; [done|]. simpl. split_and!; try done. by constructor.
Qed.

Lemma grantStep_again (env : Env) (iid uid : string) (w : World) :
  txAborts env (txStmts w) = false →
  Exists (sameGrant uid iid) (userInstanceAbilities (db w)) →
  ∃ w', grantStep env iid uid w = (Ok tt, w')
        ∧ users (db w') = users (db w)
        ∧ serviceInstances (db w') = serviceInstances (db w)
        ∧ resourceUsageLogs (db w') = resourceUsageLogs (db w)
        ∧ ∃ t, userInstanceAbilities (db w')
               = onConflict uid iid true t <$> userInstanceAbilities (db w).
Proof.
  intros Hab Hex.
  unfold grantStep, upsertAbility, cuid, now, txStatement. run. rewrite Hab. simpl.
  rewrite bool_decide_eq_true_2 by done.
  eexists. split; [done|]. simpl. split_and!; try done. by eexists.
Qed.

Lemma forEach_grant_run (env : Env) (iid : string) (ids : list string) (w : World) :
  noAborts env →
  NoDup (drawnTokens env w (length ids)) →
  (∀ t, t ∈ drawnTokens env w (length ids) → t ∉ token <$> userInstanceAbilities (db w)) →
  ∃ w', forEach ids (grantStep env iid) w = (Ok tt, w')
        ∧ users (db w') = users (db w)
        ∧ serviceInstances (db w') = serviceInstances (db w)
        ∧ resourceUsageLogs (db w') = resourceUsageLogs (db w)
        ∧ GrantRun iid ids (drawnTokens env w (length ids))
            (userInstanceAbilities (db w)) (userInstanceAbilities (db w')).
Proof.
  intros Hab. revert w.
  induction ids as [|uid ids IH]; intros w Hnd Hfresh.
  - exists w. simpl. split_and!; try done. constructor.
  - unfold drawnTokens in Hnd, Hfresh. simpl in Hnd, Hfresh.
    apply NoDup_cons in Hnd as [Hhd Hnd].
    destruct (grantStep_run env iid uid w (Hab _)) as (w1 & Hrun & Hc & Hu & Hs & Hl & Hstep).
    { apply Hfresh. by left. }
    destruct (IH w1) as (w2 & Hrun2 & Hu2 & Hs2 & Hl2 & Hsteps).
    { unfold drawnTokens. by rewrite Hc. }
    { unfold drawnTokens. rewrite Hc. intros t Ht Hin.
      destruct (GrantStep_tokens _ _ _ _ _ t Hstep Hin) as [Hold | ->]; [|done].
      by apply (Hfresh t); [right|]. }
    exists w2. simpl. unfold bind at 1. rewrite Hrun.
    split; [done|]. split_and!; try congruence.
    unfold drawnTokens. simpl. econstructor; [exact Hstep|].
    unfold drawnTokens in Hsteps. by rewrite Hc in Hsteps.
Qed.

Lemma forEach_grant_again (env : Env) (iid : string) (ids : list string) (w : World) :
  noAborts env →
  (∀ uid, uid ∈ ids → Exists (sameGrant uid iid) (userInstanceAbilities (db w))) →
  ∃ w', forEach ids (grantStep env iid) w = (Ok tt, w')
        ∧ users (db w') = users (db w)
        ∧ keyToken <$> userInstanceAbilities (db w') = keyToken <$> userInstanceAbilities (db w).
Proof.
  intros Hab. revert w.
  induction ids as [|uid ids IH]; intros w Hall.
  - by exists w.
  - destruct (grantStep_again env iid uid w (Hab _)) as (w1 & Hrun & Hu & _ & _ & t & Hl).
    { apply Hall. by left. }
    destruct (IH w1) as (w2 & Hrun2 & Hu2 & Hl2).
    { intros u Hin. rewrite Hl.
      assert (u ∈ uid :: ids) as Hin' by (by right). specialize (Hall u Hin').
      apply Exists_exists in Hall as (a & Ha & Hs). apply Exists_exists.
      exists (onConflict uid iid true t a). split; [by apply list_elem_of_fmap_2|].
      pose proof (onConflict_keyToken iid uid true t a) as [= Hk1 Hk2 _].
      destruct Hs. split; congruence. }
    exists w2. simpl. unfold bind at 1. rewrite Hrun.
    split; [done|]. split; [congruence|].
    rewrite Hl2, Hl. apply onConflict_fmap_keyToken.
Qed.

Lemma activeUserIds_spec (d : Db) (u : User) :
  u ∈ users d → isActive u = true → user_id u ∈ activeUserIds d.
Proof.
  intros Hu Ha. unfold activeUserIds. apply list_elem_of_fmap_2.
  by apply list_elem_of_filter.
Qed.

(** The transaction of a grant is all-or-nothing: a run that fails
    leaves the store as it was. *)
Lemma grantToAllActiveUsers_atomic (env : Env) (iid : string) (w : World) :
  fst (grantToAllActiveUsers env iid w) ≠ Ok tt →
  db (snd (grantToAllActiveUsers env iid w)) = db w.
Proof.
  unfold grantToAllActiveUsers, transaction. run.
  destruct (forEach _ _ w) as [[[]|e] w']; simpl; [done|].
  intros _. by destruct w as [[]].
Qed.

Lemma elem_of_activeUserIds (d : Db) (uid : string) :
  uid ∈ activeUserIds d ↔ ∃ u, u ∈ users d ∧ isActive u = true ∧ user_id u = uid.
Proof.
  unfold activeUserIds. rewrite list_elem_of_fmap. split.
  - intros (u & -> & Hu). apply list_elem_of_filter in Hu as [Ha Hu]. by exists u.
  - intros (u & Hu & Ha & <-). exists u. split; [done|]. by apply list_elem_of_filter.
Qed.

Lemma activeUserIds_length (d : Db) :
  length (activeUserIds d) = length (filter (λ u, isActive u = true) (users d)).
Proof. unfold activeUserIds. by rewrite length_fmap. Qed.

(** C3: grantToAllActiveUsers(instanceId), run on a ledger that honours
    its two unique keys, with a store that aborts nothing and with one
    drawn token per user row with isActive true, these tokens pairwise
    distinct and not yet in the ledger, succeeds, and afterwards: every
    user with isActive true has exactly one row for (userId, instanceId),
    with canUse true; every row that existed is still there with its
    token; a row whose pair had no row before is for that instance and for
    the id of a user row with isActive true, has canUse true and a drawn
    token that no earlier row carried, and tokens remain unique; for a
    user id that only user rows with isActive false carry (or none), the
    rows of (userId, instanceId) are what they were, so such a user who
    had no row has none and receives no token; the user table is
    unchanged; and a second run succeeds and changes no pair and no
    token. *)
Theorem grantToAllActiveUsers_spec (env : Env) (iid : string) (w : World) :
  let active := filter (λ u, isActive u = true) (users (db w)) in
  let drawn := drawnTokens env w (length active) in
  let l := userInstanceAbilities (db w) in
  let r := grantToAllActiveUsers env iid w in
  let l' := userInstanceAbilities (db (snd r)) in
  let r2 := grantToAllActiveUsers env iid (snd r) in
  noAborts env →
  uniqueGrants (db w) →
  uniqueTokens (db w) →
  NoDup drawn →
  (∀ t, t ∈ drawn → t ∉ token <$> l) →
  fst r = Ok tt
  ∧ (∀ u, u ∈ users (db w) → isActive u = true →
          ∃ a, filter (sameGrant (user_id u) iid) l' = [a] ∧ canUse a = true)
  ∧ (∀ a, a ∈ l → ∃ a', a' ∈ l' ∧ keyToken a' = keyToken a)
  ∧ (∀ a', a' ∈ l' → (∀ a, a ∈ l → keyOf a ≠ keyOf a') →
           instanceId a' = iid
           ∧ (∃ u, u ∈ users (db w) ∧ isActive u = true ∧ user_id u = userId a')
           ∧ canUse a' = true
           ∧ token a' ∈ drawn ∧ token a' ∉ token <$> l)
  ∧ uniqueTokens (db (snd r))
  ∧ uniqueGrants (db (snd r))
  ∧ (∀ uid, (∀ u, u ∈ users (db w) → user_id u = uid → isActive u = false) →
            filter (sameGrant uid iid) l' = filter (sameGrant uid iid) l
            ∧ ∀ a', a' ∈ l' → userId a' = uid → instanceId a' = iid → a' ∈ l)
  ∧ users (db (snd r)) = users (db w)
  ∧ (fst r2 = Ok tt
     ∧ keyToken <$> userInstanceAbilities (db (snd r2)) = keyToken <$> l').
Proof.
  intros active drawn l r l' r2 Hab Hug Hut Hnd Hfresh.
  set (ids := activeUserIds (db w)).
  assert (drawn = drawnTokens env w (length ids)) as Hdrawn
    by (subst drawn ids active; by rewrite activeUserIds_length).
  rewrite Hdrawn in Hnd, Hfresh.
  destruct (forEach_grant_run env iid ids w Hab Hnd Hfresh)
    as (w1 & Hrun & Hu & _ & _ & Hsteps).
  rewrite <- Hdrawn in Hsteps, Hfresh.
  assert (r = (Ok tt, w1)) as Hr.
  { subst r. unfold grantToAllActiveUsers, transaction. run. fold ids. by rewrite Hrun. }
  assert (l' = userInstanceAbilities (db w1)) as Hl' by (subst l'; by rewrite Hr).
  rewrite <- Hl' in Hsteps. fold l in Hsteps.
  assert (NoDup (keyOf <$> l')) as Hug' by (by eapply GrantRun_uniqueGrants).
  assert (∀ uid, uid ∈ ids → ∃ a, a ∈ l' ∧ sameGrant uid iid a ∧ canUse a = true) as Hgr
    by (intros uid; by eapply GrantRun_granted).
  assert (fst r2 = Ok tt
          ∧ keyToken <$> userInstanceAbilities (db (snd r2)) = keyToken <$> l') as Hrerun.
  { subst r2. rewrite Hr. simpl.
    destruct (forEach_grant_again env iid ids w1 Hab) as (w2 & Hrun2 & _ & Hk).
    { intros uid Hin. destruct (Hgr uid Hin) as (a & Ha & Hs & _).
      apply Exists_exists. exists a. by rewrite <- Hl'. }
    unfold grantToAllActiveUsers, transaction. run.
    assert (activeUserIds (db w1) = ids) as -> by (unfold ids, activeUserIds; by rewrite Hu).
    rewrite Hrun2. simpl. by rewrite Hl'. }
  assert (∀ uid, (∀ u, u ∈ users (db w) → user_id u = uid → isActive u = false) → uid ∉ ids)
    as Hinactive.
  { intros uid Hall Hin. apply elem_of_activeUserIds in Hin as (u & Hin & Hact & Hid).
    rewrite (Hall u Hin Hid) in Hact. discriminate. }
  split_and!.
  - by rewrite Hr.
  - intros u Hin Hact.
    destruct (Hgr (user_id u)) as (a & Ha & Hs & Hc); [by apply activeUserIds_spec|].
    exists a. split; [by apply unique_grant_row|done].
  - intros a Ha.
    destruct (GrantRun_kept _ _ _ _ _ a Hsteps Ha) as (a' & Ha' & Hk & _). by exists a'.
  - intros a' Ha' Hnew.
    destruct (GrantRun_origin _ _ _ _ _ a' Hsteps Ha') as [(a & Ha & [= Hk1 Hk2 _]) | Hn].
    { destruct (Hnew a Ha). unfold keyOf. congruence. }
    destruct Hn as (Hid & Hi & Ht).
    split_and!; try done; [by apply elem_of_activeUserIds| |by apply Hfresh].
    destruct (Hgr _ Hid) as (b & Hb & [Hbu Hbi] & Hbc).
    assert (a' = b) as ->; [|done].
    eapply (NoDup_fmap_eq keyOf); eauto. unfold keyOf. congruence.
  - unfold uniqueTokens. fold l'. by eapply GrantRun_uniqueTokens.
  - done.
  - intros uid Hall.
    assert (filter (sameGrant uid iid) l' = filter (sameGrant uid iid) l) as Hsame
      by (eapply GrantRun_others; [done|by apply Hinactive]).
    split; [done|]. intros a' Ha' Hau Hai.
    assert (a' ∈ filter (sameGrant uid iid) l') as Hf by (by apply list_elem_of_filter).
    rewrite Hsame in Hf. by apply list_elem_of_filter in Hf as [_ Hf].
  - by rewrite Hr.
  - apply Hrerun.
  - apply Hrerun.
Qed.

Lemma grantToAllActiveUsers_spec_witness :
  fst (grantToAllActiveUsers sampleEnv "i1" (worldOf sampleDb)) = Ok tt
  ∧ (∀ u, u ∈ sampleUsers → isActive u = true →
          ∃ a, filter (sameGrant (user_id u) "i1")
                 (userInstanceAbilities
                    (db (snd (grantToAllActiveUsers sampleEnv "i1" (worldOf sampleDb))))) = [a]
               ∧ canUse a = true)
  ∧ filter (sameGrant "u3" "i1")
      (userInstanceAbilities
         (db (snd (grantToAllActiveUsers sampleEnv "i1" (worldOf sampleDb)))))
    = [].
Proof.
  assert (noAborts sampleEnv) as H1 by (intros k; reflexivity).
  assert (uniqueGrants (db (worldOf sampleDb))) as H2 by (unfold uniqueGrants; compute_done).
  assert (uniqueTokens (db (worldOf sampleDb))) as H3 by (unfold uniqueTokens; compute_done).
  assert (NoDup (drawnTokens sampleEnv (worldOf sampleDb)
                   (length (filter (λ u, isActive u = true)
                              (users (db (worldOf sampleDb))))))) as H4 by compute_done.
  assert (∀ t, t ∈ drawnTokens sampleEnv (worldOf sampleDb)
                     (length (filter (λ u, isActive u = true)
                                (users (db (worldOf sampleDb))))) →
               t ∉ token <$> userInstanceAbilities (db (worldOf sampleDb))) as H5
    by (apply Forall_forall; compute_done).
  assert (∀ u, u ∈ users (db (worldOf sampleDb)) → user_id u = "u3" → isActive u = false)
    as H6
    by (apply (Forall_forall (λ u, user_id u = "u3" → isActive u = false)); compute_done).
  pose proof (grantToAllActiveUsers_spec sampleEnv "i1" (worldOf sampleDb) H1 H2 H3 H4 H5)
    as (Hok & Hone & _ & _ & _ & _ & Hinactive & _).
  split; [exact Hok|]. split; [exact Hone|].
  destruct (Hinactive "u3" H6) as [Hsame _].
  exact (eq_trans Hsame eq_refl).
Defined.

(** ** The unique keys are kept by every writer of the ledger *)

Lemma grantStep_inv (env : Env) (iid uid : string) (w w' : World) :
  grantStep env iid uid w = (Ok tt, w') →
  GrantStep iid uid (createCUID env (cuidCalls w))
    (userInstanceAbilities (db w)) (userInstanceAbilities (db w')).
Proof.
  unfold grantStep, upsertAbility, cuid, now, txStatement. run.
  destruct (txAborts env (txStmts w)); simpl; [done|].
  case_bool_decide as Hex; [intros [= <-]; by constructor|].
  case_bool_decide as Hin; [done|]. intros [= <-]. by constructor.
Qed.

Lemma forEach_grant_inv (env : Env) (iid : string) (ids : list string) (w w' : World) :
  forEach ids (grantStep env iid) w = (Ok tt, w') →
  ∃ toks, GrantRun iid ids toks (userInstanceAbilities (db w)) (userInstanceAbilities (db w')).
Proof.
  revert w. induction ids as [|uid ids IH]; intros w; simpl.
  - intros [= <-]. eexists. constructor.
  - unfold bind at 1. destruct (grantStep env iid uid w) as [[[]|e] w1] eqn:E; [|done].
    intros Hrest. destruct (IH _ Hrest) as [toks Hrun].
    eexists. econstructor; [by apply grantStep_inv|done].
Qed.



(** ** The procedures on the sample store *)

Example grant_sample :
  userInstanceAbilities
    (db (snd (grantToAllActiveUsers sampleEnv "i1" (worldOf sampleDb))))
  = [ mkAbility "u1" "i1" "t1" true 1%Z;
      mkAbility "u2" "i1" "t2" true 3%Z;
      mkAbility "u1" "i2" "t3" true 0%Z;
      mkAbility "u4" "i1" "c2" true 4%Z ].
Proof. vm_compute. reflexivity. Qed.

(** A drawn token that is already in the ledger makes the insert fail,
    and the transaction undoes the rows rewritten before it. *)
Example grant_sample_collision :
  let env := mkEnv (λ _, "t3") (newDate sampleEnv) (hashPassword sampleEnv)
                   (verifyPassword sampleEnv) (newSessionId sampleEnv) (txAborts sampleEnv) in
  let r := grantToAllActiveUsers env "i1" (worldOf sampleDb) in
  fst r = Err (StoreError UniqueViolation) ∧ db (snd r) = sampleDb.
Proof. vm_compute. split; reflexivity. Qed.

Example delete_sample_aborted :
  let env := mkEnv (createCUID sampleEnv) (newDate sampleEnv) (hashPassword sampleEnv)
                   (verifyPassword sampleEnv) (newSessionId sampleEnv)
                   (λ k, bool_decide (k = 2)) in
  let r := delete env "i1" true (worldOf sampleDb) in
  fst r = Err (StoreError Aborted) ∧ db (snd r) = sampleDb.
Proof. vm_compute. split; reflexivity. Qed.

Example delete_sample_keep_logs :
  let d := db (snd (delete sampleEnv "i1" false (worldOf sampleDb))) in
  userInstanceAbilities d = [ mkAbility "u1" "i2" "t3" true 0%Z ]
  ∧ (si_id <$> serviceInstances d) = ["i2"]
  ∧ resourceUsageLogs d = sampleLogs.
Proof. vm_compute. split_and!; reflexivity. Qed.

Example updateData_sample :
  let env := mkEnv (createCUID sampleEnv) (λ _, 7%Z) (hashPassword sampleEnv)
                   (verifyPassword sampleEnv) (newSessionId sampleEnv) (txAborts sampleEnv) in
  let r := updateData Some env (mkUpdateInput (Some "i2") ∅ (Some "{x}")) (worldOf sampleDb) in
  fst r = Ok (mkServiceInstance "i2" ∅ "{x}" 0%Z 7%Z)
  ∧ serviceInstances (db (snd r))
    = [ mkServiceInstance "i1" ∅ "{}" 0%Z 0%Z; mkServiceInstance "i2" ∅ "{x}" 0%Z 7%Z ].
Proof. vm_compute. split; reflexivity. Qed.

Example update_empty_id_sample :
  update Some sampleEnv (mkUpdateInput (Some EmptyString) ∅ None) (worldOf sampleDb)
  = (Err (TRPCError BAD_REQUEST "ID is required"), worldOf sampleDb).
Proof. reflexivity. Qed.

Example login_sample :
  let w := snd (login sampleEnv "bob" "hunter2" (worldOf sampleDb)) in
  fst (login sampleEnv "bob" "hunter2" (worldOf sampleDb)) = Ok tt
  ∧ sessions w = [ mkSession "s0" "u2" None ]
  ∧ cookie w = Some "s0".
Proof. vm_compute. split_and!; reflexivity. Qed.

Example changePassword_unknown_id_sample :
  fst (changePassword sampleEnv (mkUser "u1" "alice" "$secret" ADMIN true)
         "u9" "newpass" (worldOf sampleDb))
  = Err (StoreError RecordNotFound).
Proof. vm_compute. reflexivity. Qed.

Example verify_sample_other_instance :
  fst (verifyUserAbility (mkVerifyInput "i2" "t1" None None) sampleWorld)
  = Err (TRPCError UNAUTHORIZED "Invalid token").
Proof. vm_compute. reflexivity. Qed.

(** * Further properties of the routers *)

(** ** Lookups *)

Lemma findFirst_cons {A} (P : A → Prop) `{∀ x, Decision (P x)} (x : A) (l : list A) :
  findFirst P (x :: l) = if decide (P x) then Some x else findFirst P l.
Proof.
  unfold findFirst. simpl. destruct (decide (P x)); [done|].
  by destruct (list_find P l) as [[i y]|].
Qed.

Lemma findFirst_filter {A} (P Q : A → Prop) `{∀ x, Decision (P x)} `{∀ x, Decision (Q x)}
    (l : list A) :
  (∀ x, P x → Q x) → findFirst P (filter Q l) = findFirst P l.
Proof.
  intros HPQ. induction l as [|x l IH]; [done|].
  rewrite filter_cons. destruct (decide (Q x)) as [HQ|HQ].
  - rewrite !findFirst_cons, IH. done.
  - rewrite findFirst_cons, IH. destruct (decide (P x)) as [HP|]; [|done].
    by destruct HQ; apply HPQ.
Qed.

Lemma filter_filter_same {A} (P : A → Prop) `{∀ x, Decision (P x)} (l : list A) :
  filter P (filter P l) = filter P l.
Proof.
  induction l as [|x l IH]; [done|].
  rewrite filter_cons. destruct (decide (P x)); [|done].
  by rewrite filter_cons_True, IH.
Qed.

Lemma verifyUserAbility_lookup (input : VerifyInput) (w1 w2 : World) :
  findFirst (matchesGrant input) (userInstanceAbilities (db w1))
  = findFirst (matchesGrant input) (userInstanceAbilities (db w2)) →
  fst (verifyUserAbility input w1) = fst (verifyUserAbility input w2).
Proof.
  intros E. unfold verifyUserAbility. run. rewrite E. clear E.
  destruct (findFirst _ _); [|done]. by repeat case_bool_decide.
Qed.

(** X1: verifyUserAbility never authorises without a grant.  Whatever
    the ledger, when it returns a user id, some ledger row carries the
    input's instanceId and token, has canUse true and belongs to that
    user. *)
Theorem verifyUserAbility_sound (w : World) (input : VerifyInput) (uid : string) :
  fst (verifyUserAbility input w) = Ok uid →
  ∃ a, a ∈ userInstanceAbilities (db w)
       ∧ instanceId a = vi_instanceId input ∧ token a = vi_userToken input
       ∧ canUse a = true ∧ userId a = uid.
Proof.
  unfold verifyUserAbility. run.
  destruct (findFirst (matchesGrant input) (userInstanceAbilities (db w))) as [row|] eqn:E;
    [|done].
  apply findFirst_Some in E as [[Hi Ht] Hin].
  case_bool_decide; [done|]. case_bool_decide as Hc; [done|]. simpl. intros [= <-].
  exists row. split_and!; try done. by destruct (canUse row).
Qed.

Lemma verifyUserAbility_sound_witness :
  ∃ a, a ∈ sampleLedger
       ∧ instanceId a = "i2" ∧ token a = "t3" ∧ canUse a = true ∧ userId a = "u1".
Proof.
  apply (verifyUserAbility_sound sampleWorld (mkVerifyInput "i2" "t3" None None) "u1").
  reflexivity.
Defined.

(** X2: the addresses matter to verifyUserAbility through validation
    only.  The procedure never writes; an input with a malformed
    address is answered BAD_REQUEST whatever the ledger holds; and two
    inputs with the same instance id and token whose addresses all pass
    validation get the same answer. *)
Theorem verifyUserAbility_addresses (isIp : string → bool) (issues : VerifyInput → string)
    (w : World) (i t : string) (requestIp userIp requestIp' userIp' : option string) :
  let run a b := verifyUserAbilityProcedure isIp issues (mkVerifyInput i t a b) w in
  snd (run requestIp userIp) = w
  ∧ (ipAccepted isIp requestIp = false ∨ ipAccepted isIp userIp = false →
     failsWith (fst (run requestIp userIp)) BAD_REQUEST)
  ∧ (ipAccepted isIp requestIp = true → ipAccepted isIp userIp = true →
     ipAccepted isIp requestIp' = true → ipAccepted isIp userIp' = true →
     run requestIp userIp = run requestIp' userIp').
Proof.
  intros run. subst run. unfold verifyUserAbilityProcedure. simpl. split_and!.
  - destruct (_ && _); [|done].
    unfold verifyUserAbility. run.
    destruct (findFirst _ _); [|done]. by repeat case_bool_decide.
  - intros [-> | ->]; [|rewrite andb_false_r]; by eexists.
  - by intros -> -> -> ->.
Qed.

Lemma verifyUserAbility_addresses_witness :
  failsWith (fst (verifyUserAbilityProcedure (λ s, bool_decide (s = "10.0.0.1")) (λ _, "Invalid ip")
                    (mkVerifyInput "i1" "t1" (Some "nonsense") None) sampleWorld)) BAD_REQUEST
  ∧ verifyUserAbilityProcedure (λ s, bool_decide (s = "10.0.0.1")) (λ _, "Invalid ip")
      (mkVerifyInput "i1" "t1" (Some "10.0.0.1") None) sampleWorld
    = verifyUserAbilityProcedure (λ s, bool_decide (s = "10.0.0.1")) (λ _, "Invalid ip")
        (mkVerifyInput "i1" "t1" None None) sampleWorld.
Proof.
  split.
  - apply (verifyUserAbility_addresses (λ s, bool_decide (s = "10.0.0.1")) (λ _, "Invalid ip")
             sampleWorld "i1" "t1" (Some "nonsense") None None None).
    left. reflexivity.
  - apply (verifyUserAbility_addresses (λ s, bool_decide (s = "10.0.0.1")) (λ _, "Invalid ip")
             sampleWorld "i1" "t1" (Some "10.0.0.1") None None None); reflexivity.
Defined.

(** ** getById *)

Lemma getById_lookup {V} (schema : Schema ServiceInstance V) (id : string) (w1 w2 : World) :
  findFirst (λ r, si_id r = id) (serviceInstances (db w1))
  = findFirst (λ r, si_id r = id) (serviceInstances (db w2)) →
  fst (getById schema id w1) = fst (getById schema id w2).
Proof.
  intros E. unfold getById. run. rewrite E. clear E.
  destruct (findFirst _ _) as [r|]; [|done]. simpl. by destruct (schema r).
Qed.

(** X3: getById fails NOT_FOUND exactly when no service instance
    carries the id, whether or not the caller holds a grant for it; it
    never writes. *)
Theorem getById_not_found_iff {V} (schema : Schema ServiceInstance V) (w : World) (id : string) :
  (failsWith (fst (getById schema id w)) NOT_FOUND ↔
     ∀ r, r ∈ serviceInstances (db w) → si_id r ≠ id)
  ∧ snd (getById schema id w) = w.
Proof.
  unfold getById. run.
  destruct (findFirst (λ r, si_id r = id) (serviceInstances (db w))) as [r|] eqn:E.
  - apply findFirst_Some in E as [Hid Hin]. simpl.
    destruct (schema r); simpl; (split; [|done]); split.
    + intros [m Hm]. discriminate.
    + intros Hno. by destruct (Hno r Hin).
    + intros [m Hm]. discriminate.
    + intros Hno. by destruct (Hno r Hin).
  - rewrite findFirst_None in E. split; [|done]. split; [done|]. intros _. by eexists.
Qed.

(** ** delete *)

Lemma delete_run (env : Env) (id : string) (deleteLogs : bool) (w : World) :
  let r := delete env id deleteLogs w in
  (fst r = Ok tt
   ∧ userInstanceAbilities (db (snd r))
     = filter (λ a, instanceId a ≠ id) (userInstanceAbilities (db w))
   ∧ serviceInstances (db (snd r)) = filter (λ s, si_id s ≠ id) (serviceInstances (db w))
   ∧ resourceUsageLogs (db (snd r))
     = (if deleteLogs then filter (λ g, log_instanceId g ≠ id) (resourceUsageLogs (db w))
        else resourceUsageLogs (db w))
   ∧ users (db (snd r)) = users (db w))
  ∨ (fst r ≠ Ok tt ∧ db (snd r) = db w).
Proof.
  unfold delete, transaction, deleteAbilitiesOf, deleteInstance, deleteLogsOf, txStatement.
  run.
  destruct (txAborts env (txStmts w)); simpl; [right; by destruct w as [[]]|].
  destruct (txAborts env (S (txStmts w))); simpl; [right; by destruct w as [[]]|].
  destruct deleteLogs; simpl; [|by left].
  destruct (txAborts env (S (S (txStmts w)))); simpl; [right; by destruct w as [[]]|].
  by left.
Qed.

Lemma delete_completes (env : Env) (id : string) (deleteLogs : bool) (w : World) :
  noAborts env → fst (delete env id deleteLogs w) = Ok tt.
Proof.
  intros Hn.
  unfold delete, transaction, deleteAbilitiesOf, deleteInstance, deleteLogsOf, txStatement.
  run. rewrite !Hn. simpl. destruct deleteLogs; simpl; [|done]. by rewrite Hn.
Qed.

(** X4: a completed delete revokes the instance.  Afterwards
    verifyUserAbility fails UNAUTHORIZED for that instance id with any
    token, and getById fails NOT_FOUND for it. *)
Theorem delete_revokes {V} (schema : Schema ServiceInstance V) (env : Env) (w : World)
    (id : string) (deleteLogs : bool) (input : VerifyInput) :
  fst (delete env id deleteLogs w) = Ok tt →
  vi_instanceId input = id →
  fst (verifyUserAbility input (snd (delete env id deleteLogs w)))
    = Err (TRPCError UNAUTHORIZED "Invalid token")
  ∧ fst (getById schema id (snd (delete env id deleteLogs w)))
    = Err (TRPCError NOT_FOUND "Service instance not found").
Proof.
  intros Hok Hid.
  destruct (delete_run env id deleteLogs w) as [(_ & Hab & Hsi & _) | [Hne _]]; [|done].
  split.
  - unfold verifyUserAbility. run. rewrite Hab.
    assert (findFirst (matchesGrant input)
              (filter (λ a, instanceId a ≠ id) (userInstanceAbilities (db w))) = None) as ->;
      [|done].
    apply findFirst_None. intros a Ha [Hi _].
    apply list_elem_of_filter in Ha as [Hne _]. congruence.
  - unfold getById. run. rewrite Hsi.
    assert (findFirst (λ r, si_id r = id)
              (filter (λ s, si_id s ≠ id) (serviceInstances (db w))) = None) as ->; [|done].
    apply findFirst_None. intros r Hr Hi.
    by apply list_elem_of_filter in Hr as [Hne _].
Qed.

Lemma delete_revokes_witness :
  fst (verifyUserAbility (mkVerifyInput "i1" "t1" None None)
         (snd (delete sampleEnv "i1" false (worldOf sampleDb))))
    = Err (TRPCError UNAUTHORIZED "Invalid token")
  ∧ fst (getById Some "i1" (snd (delete sampleEnv "i1" false (worldOf sampleDb))))
    = Err (TRPCError NOT_FOUND "Service instance not found").
Proof.
  apply (delete_revokes Some sampleEnv (worldOf sampleDb) "i1" false
           (mkVerifyInput "i1" "t1" None None)); reflexivity.
Defined.

(** X5: delete leaves every other instance alone.  Whether it completes
    or is aborted, verifyUserAbility and getById answer for any other
    instance id exactly as before, and the user table is unchanged. *)
Theorem delete_frame {V} (schema : Schema ServiceInstance V) (env : Env) (w : World)
    (id : string) (deleteLogs : bool) (input : VerifyInput) (other : string) :
  vi_instanceId input ≠ id →
  other ≠ id →
  let w' := snd (delete env id deleteLogs w) in
  fst (verifyUserAbility input w') = fst (verifyUserAbility input w)
  ∧ fst (getById schema other w') = fst (getById schema other w)
  ∧ users (db w') = users (db w).
Proof.
  intros Hin Hother w'. subst w'.
  destruct (delete_run env id deleteLogs w) as [(_ & Hab & Hsi & _ & Hu) | [_ Hdb]].
  - split_and!; [| |done].
    + apply verifyUserAbility_lookup. rewrite Hab.
      apply findFirst_filter. intros a [Hi _]. congruence.
    + apply getById_lookup. rewrite Hsi.
      apply (findFirst_filter (λ r, si_id r = other)). intros r Hr. congruence.
  - split_and!.
    + apply verifyUserAbility_lookup. by rewrite Hdb.
    + apply getById_lookup. by rewrite Hdb.
    + by rewrite Hdb.
Qed.

Lemma delete_frame_witness :
  fst (verifyUserAbility (mkVerifyInput "i2" "t3" None None)
         (snd (delete sampleEnv "i1" true (worldOf sampleDb))))
  = Ok "u1".
Proof.
  destruct (delete_frame Some sampleEnv (worldOf sampleDb) "i1" true
              (mkVerifyInput "i2" "t3" None None) "i2") as (Hv & _ & _); [done|done|].
  rewrite Hv. reflexivity.
Defined.

(** X6: delete is idempotent.  With a store that aborts nothing, a
    second delete of the same id with the same flag leaves the store as
    the first one left it. *)
Theorem delete_idempotent (env : Env) (w : World) (id : string) (deleteLogs : bool) :
  noAborts env →
  let w1 := snd (delete env id deleteLogs w) in
  fst (delete env id deleteLogs w1) = Ok tt
  ∧ db (snd (delete env id deleteLogs w1)) = db w1.
Proof.
  intros Hn w1. split; [by apply delete_completes|].
  pose proof (delete_completes env id deleteLogs w Hn) as Hok1.
  pose proof (delete_completes env id deleteLogs w1 Hn) as Hok2.
  destruct (delete_run env id deleteLogs w) as [(_ & Hab & Hsi & Hlg & Hu) | [Hne _]]; [|done].
  destruct (delete_run env id deleteLogs w1) as [(_ & Hab2 & Hsi2 & Hlg2 & Hu2) | [Hne _]];
    [|done].
  fold w1 in Hab, Hsi, Hlg, Hu.
  destruct (db (snd (delete env id deleteLogs w1))) as [u2 s2 a2 g2].
  destruct (db w1) as [u1 s1 a1 g1]. simpl in *.
  subst u2 s2 a2 g2. subst a1 s1.
  rewrite !filter_filter_same. f_equal.
  destruct deleteLogs; [|done]. subst g1. by rewrite filter_filter_same.
Qed.

Lemma delete_idempotent_witness :
  db (snd (delete sampleEnv "i1" true (snd (delete sampleEnv "i1" true (worldOf sampleDb)))))
  = db (snd (delete sampleEnv "i1" true (worldOf sampleDb))).
Proof.
  apply (delete_idempotent sampleEnv (worldOf sampleDb) "i1" true).
  intros k. reflexivity.
Defined.

(** ** grantToAllActiveUsers *)

Lemma grantStep_tables (env : Env) (iid uid : string) (w : World) :
  users (db (snd (grantStep env iid uid w))) = users (db w)
  ∧ serviceInstances (db (snd (grantStep env iid uid w))) = serviceInstances (db w)
  ∧ resourceUsageLogs (db (snd (grantStep env iid uid w))) = resourceUsageLogs (db w).
Proof.
  unfold grantStep, upsertAbility, cuid, now, txStatement. run.
  destruct (txAborts env (txStmts w)); simpl; [done|].
  case_bool_decide; [done|]. by case_bool_decide.
Qed.

Lemma forEach_grant_tables (env : Env) (iid : string) (ids : list string) (w w' : World)
    (r : result unit) :
  forEach ids (grantStep env iid) w = (r, w') →
  users (db w') = users (db w)
  ∧ serviceInstances (db w') = serviceInstances (db w)
  ∧ resourceUsageLogs (db w') = resourceUsageLogs (db w).
Proof.
  revert w. induction ids as [|uid ids IH]; intros w; simpl.
  - by intros [= _ <-].
  - unfold bind at 1.
    pose proof (grantStep_tables env iid uid w) as (Hu & Hs & Hl).
    destruct (grantStep env iid uid w) as [[[]|e] w1]; simpl in *.
    + intros Hrest. destruct (IH _ Hrest) as (Hu1 & Hs1 & Hl1). split_and!; congruence.
    + by intros [= _ <-].
Qed.

Lemma forEach_grant_errors (env : Env) (iid : string) (ids : list string) (w w' : World)
    (e : Failure) :
  forEach ids (grantStep env iid) w = (Err e, w') →
  e = StoreError UniqueViolation ∨ e = StoreError Aborted.
Proof.
  revert w. induction ids as [|uid ids IH]; intros w; simpl; [done|].
  unfold bind at 1. destruct (grantStep env iid uid w) as [[[]|e1] w1] eqn:E; [by apply IH|].
  intros [= <- <-]. revert E.
  unfold grantStep, upsertAbility, cuid, now, txStatement. run.
  destruct (txAborts env (txStmts w)); simpl; [intros [= <- _]; by right|].
  case_bool_decide; [done|]. case_bool_decide; [|done]. intros [= <- _]. by left.
Qed.

Section GrantFrame.
Variable iid : string.
Implicit Types l : list UserInstanceAbility.

Lemma GrantStep_other_instances uid tok l l' :
  GrantStep iid uid tok l l' →
  filter (λ a, instanceId a ≠ iid) l' = filter (λ a, instanceId a ≠ iid) l.
Proof.
  destruct 1 as [l t _ | l t _ _].
  - induction l as [|a l IH]; [done|]. rewrite fmap_cons.
    unfold onConflict at 1. case_bool_decide as Hs.
    + destruct Hs as [_ Hi].
      rewrite !filter_cons_False, IH; [done | |]; intros Hne; by apply Hne.
    + rewrite !filter_cons, IH. done.
  - rewrite filter_app, filter_cons_False, filter_nil, app_nil_r; [done|].
    intros Hne. by apply Hne.
Qed.

Lemma GrantRun_other_rows ids toks l l' :
  GrantRun iid ids toks l l' →
  filter (λ a, instanceId a ≠ iid) l' = filter (λ a, instanceId a ≠ iid) l.
Proof.
  induction 1 as [|uid ids tok toks l l1 l2 Hstep _ IH]; [done|].
  rewrite IH. by eapply GrantStep_other_instances.
Qed.
End GrantFrame.

(** X7: a grant run is all-or-nothing and fails only through the store.
    It either succeeds, or fails because a drawn token is already in the
    ledger or because the store aborts a statement; when it fails the
    store is exactly what it was before the call. *)
Theorem grant_all_or_nothing (env : Env) (iid : string) (w : World) :
  let r := grantToAllActiveUsers env iid w in
  fst r = Ok tt
  ∨ ((fst r = Err (StoreError UniqueViolation) ∨ fst r = Err (StoreError Aborted))
     ∧ db (snd r) = db w).
Proof.
  unfold grantToAllActiveUsers, transaction. run.
  destruct (forEach _ _ w) as [[[]|e] w'] eqn:E; simpl; [by left|].
  right. split; [|by destruct w as [[]]].
  destruct (forEach_grant_errors _ _ _ _ _ _ E) as [-> | ->]; auto.
Qed.

(** X8: a grant run writes nothing but ledger rows of its instance.
    Whether it succeeds or fails, the user, service-instance and usage-log
    tables are unchanged, the ledger rows of every other instance are
    unchanged and in the same order, and verifyUserAbility answers for
    any other instance id as before. *)
Theorem grant_frame (env : Env) (iid : string) (w : World) (input : VerifyInput) :
  let w' := snd (grantToAllActiveUsers env iid w) in
  users (db w') = users (db w)
  ∧ serviceInstances (db w') = serviceInstances (db w)
  ∧ resourceUsageLogs (db w') = resourceUsageLogs (db w)
  ∧ filter (λ a, instanceId a ≠ iid) (userInstanceAbilities (db w'))
    = filter (λ a, instanceId a ≠ iid) (userInstanceAbilities (db w))
  ∧ (vi_instanceId input ≠ iid →
     fst (verifyUserAbility input w') = fst (verifyUserAbility input w)).
Proof.
  intros w'.
  assert (users (db w') = users (db w)
          ∧ serviceInstances (db w') = serviceInstances (db w)
          ∧ resourceUsageLogs (db w') = resourceUsageLogs (db w)
          ∧ filter (λ a, instanceId a ≠ iid) (userInstanceAbilities (db w'))
            = filter (λ a, instanceId a ≠ iid) (userInstanceAbilities (db w)))
    as (Hu & Hs & Hl & Hf).
  { subst w'. unfold grantToAllActiveUsers, transaction. run.
    destruct (forEach _ _ w) as [[[]|e] w1] eqn:E; simpl in *; [|done].
    destruct (forEach_grant_tables _ _ _ _ _ _ E) as (Hu & Hs & Hl).
    split_and!; try done.
    apply forEach_grant_inv in E as [toks Hrun]. by eapply GrantRun_other_rows. }
  split_and!; try done.
  intros Hne. apply verifyUserAbility_lookup.
  rewrite <- (findFirst_filter (matchesGrant input) (λ a, instanceId a ≠ iid)
                (userInstanceAbilities (db w'))) by (intros a [Hi _]; congruence).
  rewrite <- (findFirst_filter (matchesGrant input) (λ a, instanceId a ≠ iid)
                (userInstanceAbilities (db w))) by (intros a [Hi _]; congruence).
  by rewrite Hf.
Qed.

Lemma grant_frame_witness :
  fst (verifyUserAbility (mkVerifyInput "i2" "t3" None None)
         (snd (grantToAllActiveUsers sampleEnv "i1" (worldOf sampleDb))))
  = Ok "u1".
Proof.
  destruct (grant_frame sampleEnv "i1" (worldOf sampleDb)
              (mkVerifyInput "i2" "t3" None None)) as (_ & _ & _ & _ & Hv).
  rewrite Hv; [reflexivity|done].
Defined.

Lemma verify_of_row (w : World) (a : UserInstanceAbility) (ip ip' : option string) :
  uniqueTokens (db w) → a ∈ userInstanceAbilities (db w) → canUse a = true →
  fst (verifyUserAbility (mkVerifyInput (instanceId a) (token a) ip ip') w) = Ok (userId a).
Proof.
  intros Hu Ha Hc. unfold verifyUserAbility. run.
  rewrite (lookup_by_token _ _ a Hu Ha) by done. simpl.
  case_bool_decide; [done|]. case_bool_decide; [congruence|done].
Qed.

Lemma grant_run_facts (env : Env) (iid : string) (w : World) :
  noAborts env →
  NoDup (drawnTokens env w (length (activeUserIds (db w)))) →
  (∀ t, t ∈ drawnTokens env w (length (activeUserIds (db w))) →
        t ∉ token <$> userInstanceAbilities (db w)) →
  ∃ w1, grantToAllActiveUsers env iid w = (Ok tt, w1)
        ∧ users (db w1) = users (db w)
        ∧ serviceInstances (db w1) = serviceInstances (db w)
        ∧ GrantRun iid (activeUserIds (db w))
            (drawnTokens env w (length (activeUserIds (db w))))
            (userInstanceAbilities (db w)) (userInstanceAbilities (db w1)).
Proof.
  intros Hab Hnd Hfresh.
  destruct (forEach_grant_run env iid _ w Hab Hnd Hfresh) as (w1 & Hrun & Hu & Hs & _ & Hsteps).
  exists w1. split; [|done].
  unfold grantToAllActiveUsers, transaction. run. by rewrite Hrun.
Qed.



(** X10: the tokens getAllWithToken hands out are the ones
    verifyUserAbility accepts.  On a ledger with unique tokens, for a
    service instance of the table, a token is listed with that instance
    for a user exactly when verifyUserAbility exchanges the instance's
    id and the token for that user's id. *)
Theorem listed_tokens_verify (w : World) (uid : string) (s : ServiceInstance) (t : string) :
  uniqueTokens (db w) →
  s ∈ serviceInstances (db w) →
  (s, t) ∈ joinGrants uid (db w)
  ↔ fst (verifyUserAbility (mkVerifyInput (si_id s) t None None) w) = Ok uid.
Proof.
  intros Hut Hs. rewrite joinGrants_spec. split.
  - intros (_ & a & Ha & Hu & Hi & Hc & Ht).
    rewrite <- Hi, <- Ht, <- Hu. by apply verify_of_row.
  - intros Hv. split; [done|].
    revert Hv. unfold verifyUserAbility. run.
    destruct (findFirst _ _) as [row|] eqn:E; [|done].
    apply findFirst_Some in E as [[Hi Ht] Hin]. simpl in Hi, Ht.
    case_bool_decide; [done|]. case_bool_decide as Hc; [done|]. simpl. intros [= <-].
    exists row. split_and!; try done. by destruct (canUse row).
Qed.

Lemma listed_tokens_verify_witness :
  (mkServiceInstance "i2" ∅ "{}" 0%Z 0%Z, "t3") ∈ joinGrants "u1" (db (worldOf sampleDb)).
Proof.
  apply (listed_tokens_verify (worldOf sampleDb) "u1"
           (mkServiceInstance "i2" ∅ "{}" 0%Z 0%Z) "t3").
  - unfold uniqueTokens. compute_done.
  - apply list_elem_of_In. right. left. reflexivity.
  - reflexivity.
Defined.

(** X11: after a successful grant run every active user is offered the
    instance.  Under the conditions of a successful run, when the
    instance is in the table, the rows getAllWithToken selects for an
    active user contain that instance with a token. *)
Theorem grant_then_listed (env : Env) (iid : string) (w : World) (u : User)
    (s : ServiceInstance) :
  noAborts env →
  NoDup (drawnTokens env w (length (activeUserIds (db w)))) →
  (∀ t, t ∈ drawnTokens env w (length (activeUserIds (db w))) →
        t ∉ token <$> userInstanceAbilities (db w)) →
  u ∈ users (db w) → isActive u = true →
  s ∈ serviceInstances (db w) → si_id s = iid →
  ∃ t, (s, t) ∈ joinGrants (user_id u) (db (snd (grantToAllActiveUsers env iid w))).
Proof.
  intros Hab Hnd Hfresh Hu Hact Hs Hid.
  destruct (grant_run_facts env iid w Hab Hnd Hfresh) as (w1 & -> & _ & Hsi & Hrun). simpl.
  destruct (GrantRun_granted _ _ _ _ _ (user_id u) Hrun) as (a & Ha & [Hau Hai] & Hc);
    [by apply activeUserIds_spec|].
  exists (token a). apply joinGrants_spec. rewrite Hsi. split; [done|].
  exists a. split_and!; try done. congruence.
Qed.

Lemma grant_then_listed_witness :
  ∃ t, (mkServiceInstance "i1" ∅ "{}" 0%Z 0%Z, t)
       ∈ joinGrants "u4" (db (snd (grantToAllActiveUsers sampleEnv "i1" (worldOf sampleDb)))).
Proof.
  assert (noAborts sampleEnv) as H1 by (intros k; reflexivity).
  assert (NoDup (drawnTokens sampleEnv (worldOf sampleDb)
                   (length (activeUserIds (db (worldOf sampleDb)))))) as H4 by compute_done.
  assert (∀ t, t ∈ drawnTokens sampleEnv (worldOf sampleDb)
                     (length (activeUserIds (db (worldOf sampleDb)))) →
               t ∉ token <$> userInstanceAbilities (db (worldOf sampleDb))) as H5
    by (apply Forall_forall; compute_done).
  assert (mkUser "u4" "dave" "$qwerty" USER true ∈ users (db (worldOf sampleDb))) as H6
    by compute_done.
  assert (mkServiceInstance "i1" ∅ "{}" 0%Z 0%Z ∈ serviceInstances (db (worldOf sampleDb)))
    as H7 by (apply list_elem_of_In; left; reflexivity).
  exact (grant_then_listed sampleEnv "i1" (worldOf sampleDb)
           (mkUser "u4" "dave" "$qwerty" USER true) (mkServiceInstance "i1" ∅ "{}" 0%Z 0%Z)
           H1 H4 H5 H6 eq_refl H7 eq_refl).
Defined.

(** ** update and updateData on existing rows *)

Lemma filter_fmap_rewrite (i : string) (f : ServiceInstance → ServiceInstance)
    (l : list ServiceInstance) :
  (∀ r, si_id r = i → si_id (f r) = i) →
  filter (λ r, si_id r = i) ((λ r, if bool_decide (si_id r = i) then f r else r) <$> l)
  = f <$> filter (λ r, si_id r = i) l.
Proof.
  intros Hf. induction l as [|r l IH]; [done|].
  rewrite fmap_cons. case_bool_decide as Hi.
  - rewrite !filter_cons_True by auto. by rewrite fmap_cons, IH.
  - by rewrite !filter_cons_False, IH.
Qed.

Lemma write_run {V} (schema : Schema ServiceInstance V) (env : Env) (w : World) (i : string)
    (f : Z → ServiceInstance → ServiceInstance) :
  (∀ t r, si_id r = i → si_id (f t r) = i) →
  let t := newDate env (clockReads w) in
  let m := do t <- now env;
           do result <- updateInstances i (f t);
           parse schema (head result) in
  fst (m w) = match head (filter (λ r, si_id r = i) (serviceInstances (db w))) with
              | None => Err ZodError
              | Some r0 => match schema (f t r0) with
                           | Some v => Ok v
                           | None => Err ZodError
                           end
              end
  ∧ db (snd (m w))
    = with_serviceInstances
        ((λ r, if bool_decide (si_id r = i) then f t r else r) <$> serviceInstances (db w))
        (db w).
Proof.
  intros Hf t m. subst m. unfold bind at 1 3, now at 1 2. fold t.
  unfold bind, updateInstances. run.
  rewrite filter_fmap_rewrite by apply Hf.
  destruct (filter (λ r, si_id r = i) (serviceInstances (db w))) as [|r0 rest]; simpl; [done|].
  by destruct (schema (f t r0)).
Qed.

Lemma spreadInput_id (i : string) (input : UpdateInput) (t : Z) (r : ServiceInstance) :
  si_id (spreadInput i input t r) = i.
Proof. done. Qed.

Lemma Forall2_fmap_self {A} (R : A → A → Prop) (g : A → A) (l : list A) :
  (∀ x, R x (g x)) → Forall2 R l (g <$> l).
Proof. intros HR. induction l; constructor; auto. Qed.

(** X12: update and updateData fail BAD_REQUEST exactly when the id is
    absent or the empty string, and then leave the world untouched; with
    any other id they never answer BAD_REQUEST. *)
Theorem update_bad_request_iff {V} (schema : Schema ServiceInstance V) (env : Env)
    (w : World) (input : UpdateInput) :
  (failsWith (fst (update schema env input w)) BAD_REQUEST ↔ idMissing (ui_id input) = true)
  ∧ (failsWith (fst (updateData schema env input w)) BAD_REQUEST
     ↔ idMissing (ui_id input) = true)
  ∧ (idMissing (ui_id input) = true →
     snd (update schema env input w) = w ∧ snd (updateData schema env input w) = w).
Proof.
  unfold update, updateData.
  destruct (idMissing (ui_id input)) eqn:E.
  - split_and!; [split; [done|intros _; by eexists] | split; [done|intros _; by eexists] | done].
  - set (i := default EmptyString (ui_id input)).
    destruct (write_run schema env w i (spreadInput i input)) as [H1 _]; [done|].
    destruct (write_run schema env w i (setData (ui_data input))) as [H2 _]; [done|].
    cbv zeta in H1, H2. split_and!; [| |done].
    + rewrite H1. clear H1 H2. split; [|done]. intros [m Hm].
      destruct (head _) as [r0|]; [destruct (schema _)|]; discriminate.
    + rewrite H2. clear H1 H2. split; [|done]. intros [m Hm].
      destruct (head _) as [r0|]; [destruct (schema _)|]; discriminate.
Qed.

Lemma update_bad_request_iff_witness :
  snd (update Some sampleEnv (mkUpdateInput (Some EmptyString) ∅ (Some "{x}"))
         (worldOf sampleDb))
  = worldOf sampleDb.
Proof.
  apply (update_bad_request_iff Some sampleEnv (worldOf sampleDb)
           (mkUpdateInput (Some EmptyString) ∅ (Some "{x}"))).
  reflexivity.
Defined.

Lemma fmap_keeps {A B} (k : A → B) (g : A → A) (l : list A) :
  (∀ x, k (g x) = k x) → k <$> (g <$> l) = k <$> l.
Proof.
  intros Hk. rewrite <- list_fmap_compose. apply list_fmap_ext. intros _ x _. apply Hk.
Qed.

(** X13: update and updateData never change which instances exist.
    Whatever the input, the service-instance rows afterwards carry the
    same ids with the same creation times as before, each as many times
    as before, and the user, ledger and usage-log tables are unchanged. *)
Theorem update_keeps_ids {V} (schema : Schema ServiceInstance V) (env : Env)
    (w : World) (input : UpdateInput) :
  let keeps (w' : World) :=
    (λ r, (si_id r, si_createdAt r)) <$> serviceInstances (db w')
      ≡ₚ (λ r, (si_id r, si_createdAt r)) <$> serviceInstances (db w)
    ∧ users (db w') = users (db w)
    ∧ userInstanceAbilities (db w') = userInstanceAbilities (db w)
    ∧ resourceUsageLogs (db w') = resourceUsageLogs (db w) in
  keeps (snd (update schema env input w)) ∧ keeps (snd (updateData schema env input w)).
Proof.
  intros keeps. subst keeps. unfold update, updateData.
  destruct (idMissing (ui_id input)) eqn:E; [done|].
  set (i := default EmptyString (ui_id input)).
  destruct (write_run schema env w i (spreadInput i input)) as [_ H1]; [done|].
  destruct (write_run schema env w i (setData (ui_data input))) as [_ H2]; [done|].
  cbv zeta in H1, H2. rewrite H1, H2. simpl.
  split; (split_and!; try done);
    (rewrite fmap_keeps; [done|]); intros r;
    case_bool_decide as Hc; simpl; try done; by rewrite Hc.
Qed.

(** X14: an update fills in only what its input carries.  With a
    non-empty id, every row with that id afterwards has, for each column,
    the input's value when the input carries that column and its former
    value otherwise, the input's data when given and its former data
    otherwise, and the time drawn for the call as updatedAt; every other
    row is identical.  The answer is the shaped copy of the first such
    row, or a validation error when there is none or the schema rejects
    it. *)
Theorem update_merges_input {V} (schema : Schema ServiceInstance V) (env : Env)
    (w : World) (input : UpdateInput) (i : string) :
  ui_id input = Some i →
  i ≠ EmptyString →
  let t := newDate env (clockReads w) in
  let r := update schema env input w in
  Forall2 (λ old new,
             if decide (si_id old = i)
             then si_id new = i
                  ∧ (∀ k, si_columns new !! k
                          = match ui_columns input !! k with
                            | Some v => Some v
                            | None => si_columns old !! k
                            end)
                  ∧ si_data new = default (si_data old) (ui_data input)
                  ∧ si_createdAt new = si_createdAt old
                  ∧ si_updatedAt new = t
             else new = old)
          (serviceInstances (db w)) (serviceInstances (db (snd r)))
  ∧ fst r = match head (filter (λ r, si_id r = i) (serviceInstances (db w))) with
            | None => Err ZodError
            | Some r0 => match schema (spreadInput i input t r0) with
                         | Some v => Ok v
                         | None => Err ZodError
                         end
            end.
Proof.
  intros Hid Hne t r. subst r. unfold update. rewrite Hid. simpl.
  rewrite bool_decide_eq_false_2 by done.
  destruct (write_run schema env w i (spreadInput i input)) as [H1 H2]; [done|].
  cbv zeta in H1, H2. fold t in H1, H2. rewrite H1, H2. simpl. split; [|done].
  apply Forall2_fmap_self. intros old.
  destruct (decide (si_id old = i)) as [Ho|Ho].
  - rewrite bool_decide_eq_true_2 by done. simpl. split_and!; try done.
    intros k. rewrite lookup_union. by destruct (ui_columns input !! k), (si_columns old !! k).
  - by rewrite bool_decide_eq_false_2.
Qed.

Lemma update_merges_input_witness :
  fst (update Some sampleEnv
         (mkUpdateInput (Some "i2") {[ "name" := "gpu" ]} None) (worldOf sampleDb))
  = Ok (mkServiceInstance "i2" ({[ "name" := "gpu" ]} ∪ ∅) "{}" 0%Z 0%Z).
Proof.
  destruct (update_merges_input Some sampleEnv (worldOf sampleDb)
              (mkUpdateInput (Some "i2") {[ "name" := "gpu" ]} None) "i2") as [_ H];
    [reflexivity|done|].
  rewrite H. reflexivity.
Defined.

(** X15: updateData touches the payload and the timestamp only.  With a
    non-empty id, every row with that id keeps its id, columns and
    creation time, takes the input's data when given (and keeps its own
    otherwise) and the time drawn for the call; every other row is
    identical. *)
Theorem updateData_touches_data_only {V} (schema : Schema ServiceInstance V) (env : Env)
    (w : World) (input : UpdateInput) (i : string) :
  ui_id input = Some i →
  i ≠ EmptyString →
  Forall2 (λ old new,
             si_id new = si_id old
             ∧ si_columns new = si_columns old
             ∧ si_createdAt new = si_createdAt old
             ∧ (si_id old = i →
                si_data new = default (si_data old) (ui_data input)
                ∧ si_updatedAt new = newDate env (clockReads w))
             ∧ (si_id old ≠ i → new = old))
          (serviceInstances (db w))
          (serviceInstances (db (snd (updateData schema env input w)))).
Proof.
  intros Hid Hne. unfold updateData. rewrite Hid. simpl.
  rewrite bool_decide_eq_false_2 by done.
  destruct (write_run schema env w i (setData (ui_data input))) as [_ H2]; [done|].
  cbv zeta in H2. rewrite H2. simpl.
  apply Forall2_fmap_self. intros old. case_bool_decide; simpl; split_and!; done.
Qed.

Lemma updateData_touches_data_only_witness :
  Forall2 (λ old new, si_columns new = si_columns old ∧ si_id new = si_id old)
          sampleInstances
          (serviceInstances
             (db (snd (updateData Some sampleEnv (mkUpdateInput (Some "i2") ∅ (Some "{x}"))
                         (worldOf sampleDb))))).
Proof.
  eapply Forall2_impl.
  - apply (updateData_touches_data_only Some sampleEnv (worldOf sampleDb)
             (mkUpdateInput (Some "i2") ∅ (Some "{x}")) "i2"); [reflexivity|done].
  - intros old new (H1 & H2 & _). done.
Defined.

(** ** login and logout *)

Lemma login_run (env : Env) (w : World) (name password : string) :
  login env name password w
  = match findFirst (λ u, username u = name) (users (db w)) with
    | None => (Err (TRPCError UNAUTHORIZED "Wrong username or password"), w)
    | Some u =>
        let w1 := mkWorld (db w) (sessions w) (cookie w) (cuidCalls w) (clockReads w)
                          (saltDraws w) (sessionDraws w) (txStmts w)
                          (pwOps w ++ [OpVerify password (hashedPassword u)]) in
        if verifyPassword env password (hashedPassword u)
        then (Ok tt,
              mkWorld (db w)
                      (sessions w ++ [mkSession (newSessionId env (sessionDraws w))
                                                (user_id u) None])
                      (Some (newSessionId env (sessionDraws w)))
                      (cuidCalls w) (clockReads w) (saltDraws w) (S (sessionDraws w))
                      (txStmts w) (pwOps w1))
        else (Err (TRPCError UNAUTHORIZED "Wrong username or password"), w1)
    end.
Proof.
  unfold login. run. destruct (findFirst _ _) as [u|]; [|done].
  unfold verifyPw. simpl. by destruct (verifyPassword env password (hashedPassword u)).
Qed.

(** X16: login succeeds exactly when the username finds a user whose
    stored hash the password primitive accepts for the supplied password;
    every failure, whichever its cause, is the same UNAUTHORIZED error
    with the same message. *)
Theorem login_succeeds_iff (env : Env) (w : World) (name password : string) :
  let r := login env name password w in
  (fst r = Ok tt ↔
     ∃ u, findFirst (λ u, username u = name) (users (db w)) = Some u
          ∧ verifyPassword env password (hashedPassword u) = true)
  ∧ (fst r ≠ Ok tt →
     fst r = Err (TRPCError UNAUTHORIZED "Wrong username or password")).
Proof.
  intros r. subst r. rewrite login_run.
  destruct (findFirst _ _) as [u|]; simpl.
  - destruct (verifyPassword env password (hashedPassword u)) eqn:E; simpl.
    + split; [|done]. split; [|done]. intros _. by exists u.
    + split; [|done]. split; [done|]. intros (u' & [= <-] & Hv). congruence.
  - split; [|done]. split; [done|]. by intros (u' & ? & _).
Qed.

Lemma login_succeeds_iff_witness :
  fst (login sampleEnv "carol" "nope" (worldOf sampleDb))
  = Err (TRPCError UNAUTHORIZED "Wrong username or password").
Proof.
  apply (login_succeeds_iff sampleEnv (worldOf sampleDb) "carol" "nope").
  intros H. vm_compute in H. discriminate H.
Defined.

(** X17: what login writes.  It never writes to the store.  When it
    fails it opens no session and leaves the cookie as it was; when it
    succeeds it opens exactly one session, for the user found, under the
    session id drawn, and sets the cookie to that id. *)
Theorem login_effects (env : Env) (w : World) (name password : string) :
  let r := login env name password w in
  db (snd r) = db w
  ∧ (fst r ≠ Ok tt → sessions (snd r) = sessions w ∧ cookie (snd r) = cookie w)
  ∧ (fst r = Ok tt →
     ∃ u, findFirst (λ u, username u = name) (users (db w)) = Some u
          ∧ sessions (snd r)
            = sessions w ++ [mkSession (newSessionId env (sessionDraws w)) (user_id u) None]
          ∧ cookie (snd r) = Some (newSessionId env (sessionDraws w))).
Proof.
  intros r. subst r. rewrite login_run.
  destruct (findFirst _ _) as [u|]; simpl; [|done].
  destruct (verifyPassword env password (hashedPassword u)); simpl; [|done].
  split_and!; [done|done|]. intros _. by exists u.
Qed.

Lemma login_effects_witness :
  sessions (snd (login sampleEnv "bob" "wrong" (worldOf sampleDb))) = []
  ∧ cookie (snd (login sampleEnv "bob" "wrong" (worldOf sampleDb))) = None.
Proof.
  apply (login_effects sampleEnv (worldOf sampleDb) "bob" "wrong").
  intros H. vm_compute in H. discriminate H.
Defined.

Lemma filter_all {A} (P : A → Prop) `{∀ x, Decision (P x)} (l : list A) :
  (∀ x, x ∈ l → P x) → filter P l = l.
Proof.
  induction l as [|x l IH]; intros Hall; [done|].
  rewrite filter_cons_True by (apply Hall; left).
  f_equal. apply IH. intros y Hy. apply Hall. by right.
Qed.

(** X19: logout undoes login.  After a successful login whose drawn
    session id was not in use, logging out the session named by the
    cookie brings the session store back to what it was before the
    login, clears the cookie and leaves the store unchanged. *)
Theorem login_then_logout (env : Env) (w : World) (name password : string) (s : Session) :
  let w1 := snd (login env name password w) in
  let w2 := snd (logout s w1) in
  fst (login env name password w) = Ok tt →
  newSessionId env (sessionDraws w) ∉ session_id <$> sessions w →
  cookie w1 = Some (session_id s) →
  sessions w2 = sessions w ∧ cookie w2 = None ∧ db w2 = db w.
Proof.
  intros w1 w2. subst w2 w1. rewrite login_run.
  destruct (findFirst _ _) as [u|]; simpl; [|done].
  destruct (verifyPassword env password (hashedPassword u)); simpl; [|done].
  intros _ Hfresh [= Hs]. split_and!; try done.
  rewrite filter_app, filter_cons_False, filter_nil, app_nil_r
    by (simpl; intros Hne; by apply Hne).
  apply filter_all. intros s' Hs' Heq. apply Hfresh.
  rewrite Hs, <- Heq. by apply list_elem_of_fmap_2.
Qed.

Lemma login_then_logout_witness :
  sessions (snd (logout (mkSession "s0" "u2" None)
                   (snd (login sampleEnv "bob" "hunter2" (worldOf sampleDb)))))
  = [].
Proof.
  apply (login_then_logout sampleEnv (worldOf sampleDb) "bob" "hunter2"
           (mkSession "s0" "u2" None)).
  - reflexivity.
  - compute_done.
  - reflexivity.
Defined.

(** ** changePassword and updateSelf *)

Lemma findFirst_fmap_username (g : User → User) (name : string) (l : list User) :
  (∀ u, username (g u) = username u) →
  findFirst (λ u, username u = name) (g <$> l) = g <$> findFirst (λ u, username u = name) l.
Proof.
  intros Hg. induction l as [|u l IH]; [done|].
  rewrite fmap_cons, !findFirst_cons, IH.
  destruct (decide (username (g u) = name)) as [H1|H1], (decide (username u = name)) as [H2|H2];
    try done; rewrite Hg in H1; done.
Qed.

Lemma changePassword_users (env : Env) (w : World) (ctx_user : User)
    (input_id input_password : string) (u : User) :
  role ctx_user = ADMIN ∨ input_id = user_id ctx_user →
  u ∈ users (db w) → user_id u = input_id →
  users (db (snd (changePassword env ctx_user input_id input_password w)))
  = (λ r, if bool_decide (user_id r = input_id)
          then setHashedPassword (hashPassword env (saltDraws w) input_password) r else r)
      <$> users (db w).
Proof.
  intros Hallowed Hu Hid. unfold changePassword.
  unfold bind at 1. unfold hashPw at 1.
  set (w1 := mkWorld _ _ _ _ _ _ _ _ _).
  assert (bool_decide (role ctx_user ≠ ADMIN) && bool_decide (input_id ≠ user_id ctx_user)
          = false) as ->.
  { destruct Hallowed as [Ha | Hi].
    - by rewrite (bool_decide_eq_false_2 (role ctx_user ≠ ADMIN)) by (intros Hne; by apply Hne).
    - rewrite (bool_decide_eq_false_2 (input_id ≠ user_id ctx_user))
        by (intros Hne; by apply Hne).
      apply andb_false_r. }
  destruct (updateUser_found input_id
              (setHashedPassword (hashPassword env (saltDraws w) input_password)) w1 u Hu Hid)
    as (u' & _ & Husers & _).
  exact Husers.
Qed.

(** X20: a changed password is the one that logs in.  After a permitted
    changePassword for an existing user, on a user table with unique
    usernames, login with that user's name succeeds with every password
    the primitive accepts against the new hash (the new password, when
    the primitive accepts what it has just hashed) and fails with every
    password it rejects against it. *)
Theorem changePassword_then_login (env : Env) (w : World) (ctx_user u : User)
    (input_password attempt : string) :
  role ctx_user = ADMIN ∨ user_id u = user_id ctx_user →
  u ∈ users (db w) →
  NoDup (username <$> users (db w)) →
  let h := hashPassword env (saltDraws w) input_password in
  let w1 := snd (changePassword env ctx_user (user_id u) input_password w) in
  (fst (login env (username u) attempt w1) = Ok tt ↔ verifyPassword env attempt h = true).
Proof.
  intros Hallowed Hu Hnd h w1.
  rewrite login_run. subst w1.
  rewrite (changePassword_users env w ctx_user (user_id u) input_password u) by done.
  fold h.
  rewrite findFirst_fmap_username by (intros r; by case_bool_decide).
  destruct (findFirst_is_Some (λ r, username r = username u) (users (db w)) u Hu eq_refl)
    as [v Hv].
  rewrite Hv. simpl.
  apply findFirst_Some in Hv as [Hname Hvin].
  assert (v = u) as -> by (by eapply (NoDup_fmap_eq username)).
  rewrite bool_decide_eq_true_2 by done. simpl.
  destruct (verifyPassword env attempt h); simpl; split; done.
Qed.

Lemma changePassword_then_login_witness :
  fst (login sampleEnv "bob" "newpass"
         (snd (changePassword sampleEnv (mkUser "u1" "alice" "$secret" ADMIN true)
                 "u2" "newpass" (worldOf sampleDb))))
  = Ok tt.
Proof.
  apply (changePassword_then_login sampleEnv (worldOf sampleDb)
           (mkUser "u1" "alice" "$secret" ADMIN true)
           (mkUser "u2" "bob" "$hunter2" USER true) "newpass" "newpass").
  - left. reflexivity.
  - compute_done.
  - compute_done.
  - reflexivity.
Defined.

(** X21: the edges of changePassword.  A permitted call for an id that
    no user row carries fails with the store's record-not-found error and
    leaves the store unchanged; and no call, whatever its outcome, closes
    a session or touches the cookie. *)
Theorem changePassword_edges (env : Env) (w : World) (ctx_user : User)
    (input_id input_password : string) :
  let r := changePassword env ctx_user input_id input_password w in
  (role ctx_user = ADMIN ∨ input_id = user_id ctx_user →
   (∀ u, u ∈ users (db w) → user_id u ≠ input_id) →
   fst r = Err (StoreError RecordNotFound) ∧ db (snd r) = db w)
  ∧ sessions (snd r) = sessions w
  ∧ cookie (snd r) = cookie w.
Proof.
  intros r. subst r. unfold changePassword.
  unfold bind at 1 2 3 4. unfold hashPw at 1 2 3 4.
  set (w1 := mkWorld _ _ _ _ _ _ _ _ _).
  split_and!.
  - intros Hallowed Hno.
    assert (bool_decide (role ctx_user ≠ ADMIN) && bool_decide (input_id ≠ user_id ctx_user)
            = false) as ->.
    { destruct Hallowed as [Ha | Hi].
      - by rewrite (bool_decide_eq_false_2 (role ctx_user ≠ ADMIN))
          by (intros Hne; by apply Hne).
      - rewrite (bool_decide_eq_false_2 (input_id ≠ user_id ctx_user))
          by (intros Hne; by apply Hne).
        apply andb_false_r. }
    unfold updateUser. run.
    assert (findFirst (λ u, user_id u = input_id) (users (db w)) = None) as ->
      by (by apply findFirst_None).
    done.
  - destruct (_ && _); [done|]. unfold updateUser. run.
    by destruct (findFirst _ _).
  - destruct (_ && _); [done|]. unfold updateUser. run.
    by destruct (findFirst _ _).
Qed.

Lemma changePassword_edges_witness :
  fst (changePassword sampleEnv (mkUser "u1" "alice" "$secret" ADMIN true)
         "u9" "newpass" (worldOf sampleDb))
  = Err (StoreError RecordNotFound).
Proof.
  apply (changePassword_edges sampleEnv (worldOf sampleDb)
           (mkUser "u1" "alice" "$secret" ADMIN true) "u9" "newpass").
  - left. reflexivity.
  - apply Forall_forall. compute_done.
Defined.

(** X22: updateSelf writes the caller's row only.  Whatever fields the
    input carries, every user row whose id is not the caller's is
    identical afterwards, and the other tables are unchanged; when no row
    carries the caller's id the call fails with the store's
    record-not-found error and writes nothing. *)
Theorem updateSelf_own_row_only {V} (schema : Schema User V) (w : World) (ctx_user : User)
    (input : User → User) :
  let r := updateSelf schema ctx_user input w in
  Forall2 (λ old new, user_id old ≠ user_id ctx_user → new = old)
          (users (db w)) (users (db (snd r)))
  ∧ serviceInstances (db (snd r)) = serviceInstances (db w)
  ∧ userInstanceAbilities (db (snd r)) = userInstanceAbilities (db w)
  ∧ resourceUsageLogs (db (snd r)) = resourceUsageLogs (db w)
  ∧ ((∀ u, u ∈ users (db w) → user_id u ≠ user_id ctx_user) →
     fst r = Err (StoreError RecordNotFound) ∧ db (snd r) = db w).
Proof.
  intros r. subst r. unfold updateSelf, updateUser. run.
  destruct (findFirst (λ u, user_id u = user_id ctx_user) (users (db w))) as [u|] eqn:E; simpl.
  - assert (Forall2 (λ old new, user_id old ≠ user_id ctx_user → new = old) (users (db w))
              ((λ r, if bool_decide (user_id r = user_id ctx_user) then input r else r)
                 <$> users (db w))) as HF.
    { apply Forall2_fmap_self. intros old Hne. by rewrite bool_decide_eq_false_2. }
    apply findFirst_Some in E as [Hid Hin].
    destruct (schema (input u)); simpl; (split_and!; try done);
      intros Hno; by destruct (Hno u Hin).
  - split_and!; try done. clear E. induction (users (db w)); constructor; auto.
Qed.

Lemma updateSelf_own_row_only_witness :
  fst (updateSelf Some (mkUser "u9" "zed" "$x" USER true) (setHashedPassword "$y")
         (worldOf sampleDb))
  = Err (StoreError RecordNotFound).
Proof.
  apply (updateSelf_own_row_only Some (worldOf sampleDb) (mkUser "u9" "zed" "$x" USER true)
           (setHashedPassword "$y")).
  apply Forall_forall. compute_done.
Defined.

(** ** getAllWithToken *)

Lemma joinGrants_cons (uid : string) (s : ServiceInstance) (ss : list ServiceInstance)
    (us : list User) (ab : list UserInstanceAbility) (lg : list ResourceUsageLog) :
  joinGrants uid (mkDb us (s :: ss) ab lg)
  = ((λ a, (s, token a))
       <$> filter (λ a, instanceId a = si_id s ∧ userId a = uid ∧ canUse a = true) ab)
    ++ joinGrants uid (mkDb us ss ab lg).
Proof.
  unfold joinGrants. simpl. f_equal.
Qed.

Lemma grant_rows_at_most_one (uid i : string) (ab : list UserInstanceAbility) :
  NoDup (keyOf <$> ab) →
  length (filter (λ a, instanceId a = i ∧ userId a = uid ∧ canUse a = true) ab) ≤ 1.
Proof.
  intros Hnd.
  destruct (filter _ ab) as [|a [|b rest]] eqn:E; simpl; [lia|lia|exfalso].
  assert (a ∈ filter (λ a, instanceId a = i ∧ userId a = uid ∧ canUse a = true) ab) as Ha
    by (rewrite E; left).
  assert (b ∈ filter (λ a, instanceId a = i ∧ userId a = uid ∧ canUse a = true) ab) as Hb
    by (rewrite E; right; left).
  apply list_elem_of_filter in Ha as ((Hai & Hau & _) & Ha).
  apply list_elem_of_filter in Hb as ((Hbi & Hbu & _) & Hb).
  assert (a = b) as ->.
  { apply (NoDup_fmap_eq keyOf ab); try done. unfold keyOf. congruence. }
  assert (NoDup (filter (λ a, instanceId a = i ∧ userId a = uid ∧ canUse a = true) ab)) as Hf.
  { apply NoDup_filter. by eapply NoDup_fmap_1. }
  rewrite E in Hf. apply NoDup_cons in Hf as [Hf _]. apply Hf. left.
Qed.

(** X23: getAllWithToken lists an instance at most once.  When the
    ledger holds at most one row per (userId, instanceId) pair and the
    instance ids are unique, the ids of the instances selected for a user
    are pairwise distinct. *)
Theorem getAllWithToken_no_duplicates (w : World) (uid : string) :
  uniqueGrants (db w) →
  NoDup (si_id <$> serviceInstances (db w)) →
  NoDup ((λ p, si_id (fst p)) <$> joinGrants uid (db w)).
Proof.
  destruct w as [[us ss ab lg] ? ? ? ? ? ? ? ?]. unfold uniqueGrants. simpl.
  intros Hug. induction ss as [|s ss IH]; intros Hnd; [constructor|].
  rewrite fmap_cons in Hnd. apply NoDup_cons in Hnd as [Hs Hnd].
  rewrite joinGrants_cons, fmap_app. apply NoDup_app. split_and!.
  - pose proof (grant_rows_at_most_one uid (si_id s) ab Hug) as Hlen.
    destruct (filter _ ab) as [|a [|b rest]]; simpl in *; [constructor| |lia].
    apply NoDup_singleton.
  - intros i Hi Hi'. apply Hs.
    apply list_elem_of_fmap in Hi as ([s1 t1] & -> & Hp1).
    apply list_elem_of_fmap in Hp1 as (a & [= -> ->] & _).
    apply list_elem_of_fmap in Hi' as ([s2 t2] & Heq & Hp2). simpl in Heq.
    apply joinGrants_spec in Hp2 as [Hin _]. simpl in Hin.
    rewrite Heq. by apply list_elem_of_fmap_2.
  - by apply IH.
Qed.

Lemma getAllWithToken_no_duplicates_witness :
  NoDup ((λ p, si_id (fst p)) <$> joinGrants "u1" (db (worldOf sampleDb))).
Proof.
  apply (getAllWithToken_no_duplicates (worldOf sampleDb) "u1").
  - unfold uniqueGrants. compute_done.
  - compute_done.
Defined.

(** ** The login page *)

(** X24: what the page remembers.  Whatever the outcome of the login
    attempt, after a submit the remembered login holds the submitted
    username when the box was ticked and nothing otherwise; so on the
    next load the username is prefilled exactly when the box was ticked,
    the password field is empty, and the box is ticked again. *)
Theorem remembered_login_round_trip (attempt : Attempt) (values : LoginValues) (p : LoginPage) :
  let p' := onSubmit attempt values p in
  loginFormRemember p'
    = (if lv_rememberMe values then Some (lv_username values, true) else None)
  ∧ fields (loadPage (loginFormRemember p'))
    = mkLoginValues (if lv_rememberMe values then lv_username values else EmptyString)
                    EmptyString true.
Proof.
  intros p'. subst p'. unfold onSubmit, loadPage, defaultValues.
  destruct attempt; simpl; destruct (lv_rememberMe values); split; reflexivity.
Qed.

(** X25: the form's schema stands between the user and the server.  A
    submit whose username has fewer than two characters or whose
    password has fewer than six does not depend on how a login attempt
    would end, changes neither the remembered login nor the toasts,
    routes and log, and puts an error on a field; any other submit is the
    submit handler run on the form's values. *)
Theorem handleSubmit_gate (attempt attempt' : Attempt) (p : LoginPage) :
  (String.length (lv_username (fields p)) < 2 ∨ String.length (lv_password (fields p)) < 6 →
   handleSubmit attempt p = handleSubmit attempt' p
   ∧ loginFormRemember (handleSubmit attempt p) = loginFormRemember p
   ∧ toasts (handleSubmit attempt p) = toasts p
   ∧ pushed (handleSubmit attempt p) = pushed p
   ∧ logged (handleSubmit attempt p) = logged p
   ∧ (is_Some (error_username (handleSubmit attempt p))
      ∨ is_Some (error_password (handleSubmit attempt p))))
  ∧ (2 ≤ String.length (lv_username (fields p)) →
     6 ≤ String.length (lv_password (fields p)) →
     handleSubmit attempt p = onSubmit attempt (fields p) p).
Proof.
  unfold handleSubmit, usernameIssue, passwordIssue. split.
  - intros Hshort.
    destruct (Nat.ltb_spec (String.length (lv_username (fields p))) 2) as [Hu|Hu];
      destruct (Nat.ltb_spec (String.length (lv_password (fields p))) 6) as [Hp|Hp];
      simpl; try (split_and!; try done; (by left; eexists) || (by right; eexists)).
    lia.
  - intros Hu Hp.
    destruct (Nat.ltb_spec (String.length (lv_username (fields p))) 2);
      destruct (Nat.ltb_spec (String.length (lv_password (fields p))) 6); try lia. done.
Qed.

Lemma handleSubmit_gate_witness :
  loginFormRemember
    (handleSubmit Resolved
       (mkLoginPage None (mkLoginValues "bob" "12345" true) None None [] [] 0))
  = None.
Proof.
  apply (handleSubmit_gate Resolved Resolved
           (mkLoginPage None (mkLoginValues "bob" "12345" true) None None [] [] 0)).
  right. simpl. lia.
Defined.

(** ** The ledger's keys *)


